(** * Time series analysis of the 10-year Treasury yield

    A shallow embedding of the notebook [Tme series analysis]: the
    loading and filtering of the FRED table, the weekly and monthly
    open/high/low/close resampling, the differencing that feeds the
    unit-root tests and the correlograms, the AIC grid search over
    AR(p) orders, and the characteristic polynomial of the fitted
    AR(2) model.

    Numbers are rationals ([Q]); a missing value (NaN) is [None].
    Calls into statsmodels are an interface ([Statsmodels]) whose
    results are not computed here; pandas operations are modelled on
    the frames the notebook applies them to. *)

From Stdlib Require Import List Finite Sorted Permutation ZArith QArith Bool String Lia Lqa.
From ExtLib Require Import Structures.Monad Structures.MonadState.
From ExtLib Require Import Structures.MonadTrans Structures.MonadZero.
From ExtLib Require Import Data.Monads.OptionMonad Data.Monads.StateMonad.
Import ListNotations.
Import MonadNotation.
Local Open Scope monad_scope.
Local Open Scope Z_scope.

(** ** Values *)

(** A float64 cell of a frame: [None] is NaN, the missing value. *)
Definition cell : Type := option Q.

(** [isna] on one cell. *)
Definition isna_cell (c : cell) : bool :=
  match c with
  | None => true
  | Some _ => false
  end.

(** Subtraction of two cells; NaN propagates.  The difference is the
    exact one: the rounding of float64 is not modelled. *)
Definition cell_sub (a b : cell) : cell :=
  match a, b with
  | Some x, Some y => Some (x - y)%Q
  | _, _ => None
  end.

Definition Qltb (x y : Q) : bool := negb (Qle_bool y x).

(** Python's [a < b] and [a > b] on floats: false as soon as one side
    is NaN. *)
Definition cell_ltb (a b : cell) : bool :=
  match a, b with
  | Some x, Some y => Qltb x y
  | _, _ => false
  end.

Definition cell_gtb (a b : cell) : bool := cell_ltb b a.

(** The builtins [max] and [min] over an iterable: the first item is the
    candidate and a later item replaces it only when it is strictly
    better; an empty iterable raises [ValueError].  (Where pandas puts
    its own NaN-skipping reduction in their place, the two agree on
    every group without NaN.) *)
Definition py_extreme {A : Type} (better : A -> A -> bool) (l : list A)
  : option A :=
  match l with
  | [] => None
  | x :: l' => Some (fold_left (fun cur y => if better y cur then y else cur) l' x)
  end.

Definition py_max : list cell -> option cell := py_extreme cell_gtb.
Definition py_min : list cell -> option cell := py_extreme cell_ltb.

(** ** One-column frames *)

(** A one-column frame such as [DGS10_daily]: the index label of each
    row (a date as its day number, day 0 being 1970-01-01; a
    sub-period by its number for a resampled frame) and its value.
    The column name only labels the plots and is not kept. *)
Definition Series : Type := list (Z * cell).

(** [s.shift(1)]: every value moves one row down under an unchanged
    index; the first row receives NaN and the last value is lost. *)
Definition shift1 (s : Series) : Series :=
  combine (map fst s) (None :: map snd s).

(** [a - b] for two frames over the same index, as in
    [s.shift(1) - s]: row by row. *)
Definition frame_sub (a b : Series) : Series :=
  map (fun ab => (fst (fst ab), cell_sub (snd (fst ab)) (snd (snd ab))))
      (combine a b).

(** [s.dropna()]: the rows holding NaN are removed. *)
Definition dropna (s : Series) : Series :=
  filter (fun r => negb (isna_cell (snd r))) s.

(** [(s.shift(1) - s).dropna()], the expression behind [diff_DGS10_daily],
    [diff_DGS10_weekly], [diff_DGS10_monthly] and the argument of the
    unit-root tests on the differenced series. *)
Definition differenced (s : Series) : Series :=
  dropna (frame_sub (shift1 s) s).

(** [s.values]: the column without its index. *)
Definition values (s : Series) : list cell := map snd s.

(** A series without missing values, from its labelled numbers. *)
Definition series_of (l : list (Z * Q)) : Series :=
  map (fun r => (fst r, Some (snd r))) l.

(** The first difference as the notebook's text defines it, the operator
    (1 - B): at every position t >= 1 the value x_t - x_(t-1) under the
    label of row t. *)
Fixpoint first_difference_from (prev : Q) (l : list (Z * Q)) : list (Z * Q) :=
  match l with
  | [] => []
  | (i, x) :: l' => (i, (x - prev)%Q) :: first_difference_from x l'
  end.

Definition first_difference (l : list (Z * Q)) : list (Z * Q) :=
  match l with
  | [] => []
  | (_, x0) :: l' => first_difference_from x0 l'
  end.

(** What [differenced] computes on the same data: x_(t-1) - x_t. *)
Fixpoint lagged_minus_current_from (prev : Q) (l : list (Z * Q)) : list (Z * Q) :=
  match l with
  | [] => []
  | (i, x) :: l' => (i, (prev - x)%Q) :: lagged_minus_current_from x l'
  end.

Definition lagged_minus_current (l : list (Z * Q)) : list (Z * Q) :=
  match l with
  | [] => []
  | (_, x0) :: l' => lagged_minus_current_from x0 l'
  end.

(** ** Frames with named columns *)

(** A pandas frame, column by column: the row labels and, under each
    column name, one value per row. *)
Record Frame (A : Type) : Type := mkFrame {
  index : list Z;
  columns : list (string * list A)
}.
Arguments mkFrame {A} _ _.
Arguments index {A} _.
Arguments columns {A} _.

(** [df.isna()]: the same frame with a boolean in every cell. *)
Definition isna (df : Frame cell) : Frame bool :=
  mkFrame (index df) (map (fun c => (fst c, map isna_cell (snd c))) (columns df)).

(** [df[name]]: the first column of that name; [KeyError] when there is
    none. *)
Definition getitem {A : Type} (df : Frame A) (name : string) : option (list A) :=
  match find (fun c => String.eqb (fst c) name) (columns df) with
  | Some c => Some (snd c)
  | None => None
  end.

(** The rows of [l] at which the boolean mask holds. *)
Fixpoint select {A : Type} (mask : list bool) (l : list A) : list A :=
  match mask, l with
  | b :: mask', x :: l' => if b then x :: select mask' l' else select mask' l'
  | _, _ => []
  end.

(** [df[mask]] for a boolean column over the index of [df]. *)
Definition getitem_mask {A : Type} (df : Frame A) (mask : list bool) : Frame A :=
  mkFrame (select mask (index df))
          (map (fun c => (fst c, select mask (snd c))) (columns df)).

(** [fred_data0 = fred_data[fred_data.isna()["DGS10"]==False]]. *)
Definition fred_data0 (fred_data : Frame cell) : option (Frame cell) :=
  na <- getitem (isna fred_data) "DGS10" ;;
  ret (getitem_mask fred_data (map (fun b => Bool.eqb b false) na)).

(** [df[[name]]] as a one-column frame. *)
Definition getitem_frame (df : Frame cell) (name : string) : option Series :=
  c <- getitem df name ;;
  ret (combine (index df) c).

(** [DGS10_daily = fred_data0[["DGS10"]]], re-indexed by the parsed
    dates.  The DATE labels are held as day numbers from the start, so
    the parse leaves them as they are. *)
Definition DGS10_daily (fred_data : Frame cell) : option Series :=
  df <- fred_data0 fred_data ;;
  getitem_frame df "DGS10".

(** The rows of a frame, read across the columns; a column too short
    for the index reads as NaN. *)
Fixpoint rows_of (idx : list Z) (cols : list (list cell)) : list (Z * list cell) :=
  match idx with
  | [] => []
  | i :: idx' =>
      (i, map (fun c => hd None c) cols) :: rows_of idx' (map (@tl cell) cols)
  end.

Definition rows (df : Frame cell) : list (Z * list cell) :=
  rows_of (index df) (map snd (columns df)).

(** Every column has one value per index label. *)
Definition rectangular {A : Type} (df : Frame A) : Prop :=
  Forall (fun c => List.length (snd c) = List.length (index df)) (columns df).

(** Position of the first column called [name]. *)
Fixpoint column_position (name : string) (names : list string) : option nat :=
  match names with
  | [] => None
  | n :: names' =>
      if String.eqb n name then Some 0%nat
      else option_map S (column_position name names')
  end.

(** ** Resampling *)

(** The two rules the notebook resamples with. *)
Inductive rule : Type := W | M.

(** Year, month and day of a day number (proleptic Gregorian calendar). *)
Definition civil_from_days (z : Z) : Z * Z * Z :=
  let z := z + 719468 in
  let era := z / 146097 in
  let doe := z - era * 146097 in
  let yoe := (doe - doe / 1460 + doe / 36524 - doe / 146096) / 365 in
  let doy := doe - (365 * yoe + yoe / 4 - yoe / 100) in
  let mp := (5 * doy + 2) / 153 in
  let d := doy - (153 * mp + 2) / 5 + 1 in
  let m := if mp <? 10 then mp + 3 else mp - 9 in
  let y := yoe + era * 400 in
  (if m <=? 2 then y + 1 else y, m, d).

(** The sub-period a date falls in.  Rule ['W'] is the week closed by
    its Sunday (day 3 is Sunday 1970-01-04), numbered so that week 0
    ends on that day; rule ['M'] is the calendar month, numbered
    12 * year + (month - 1). *)
Definition period_of (how : rule) (d : Z) : Z :=
  match how with
  | W => (d + 3) / 7
  | M => let '(y, m, _) := civil_from_days d in 12 * y + (m - 1)
  end.




(** The integers from [lo] to [hi], both included. *)
Definition zrange (lo hi : Z) : list Z :=
  map (fun k => lo + Z.of_nat k) (seq 0 (Z.to_nat (hi - lo + 1))).

(** [data.resample(how)]: one group for every sub-period from that of
    the earliest date to that of the latest, holding the values of the
    rows that fall in it, in index order.  A sub-period without a row
    is kept, with an empty group.  The index is taken in chronological
    order, as the file lists it; pandas sorts any other index by date
    first, which is not modelled. *)
Definition resample (how : rule) (data : Series) : list (Z * list cell) :=
  match map fst data with
  | [] => []
  | d :: ds =>
      map (fun p =>
             (p, map snd (filter (fun r => period_of how (fst r) =? p) data)))
          (zrange (period_of how (fold_left Z.min ds d))
                  (period_of how (fold_left Z.max ds d)))
  end.

(** [x[0]] and [x[-1]] on the values of a group; [IndexError] on an
    empty one. *)
Definition getitem_0 (x : list cell) : option cell := nth_error x 0.
Definition getitem_m1 (x : list cell) : option cell := nth_error (rev x) 0.

(** The dictionary [ohlc], in insertion order. *)
Definition ohlc : list (string * (list cell -> option cell)) :=
  [("open", getitem_0); ("high", py_max); ("low", py_min); ("close", getitem_m1)]%string.

(** [grouped.apply(f)]: [f] on every group, one row per sub-period; an
    exception raised by [f] ends the call. *)
Fixpoint apply_groups (f : list cell -> option cell)
         (groups : list (Z * list cell)) : option Series :=
  match groups with
  | [] => ret []
  | (p, g) :: rest =>
      v <- f g ;;
      r <- apply_groups f rest ;;
      ret ((p, v) :: r)
  end.

(** [pd.DataFrame(columns=names)]: no row yet. *)
Definition empty_frame (names : list string) : Frame cell :=
  mkFrame [] (map (fun n => (n, [])) names).

(** The value of [s] under each label of [idx], NaN where [s] has no
    such label. *)
Definition reindex (idx : list Z) (s : Series) : list cell :=
  map (fun l => match find (fun r => fst r =? l) s with
                | Some r => snd r
                | None => None
                end) idx.

(** Replace the column [key], or add it last. *)
Fixpoint set_column (key : string) (vals : list cell)
         (cols : list (string * list cell)) : list (string * list cell) :=
  match cols with
  | [] => [(key, vals)]
  | c :: cols' =>
      if String.eqb (fst c) key then (key, vals) :: cols'
      else c :: set_column key vals cols'
  end.

(** [df[key] = s] for a one-column frame [s].  A frame without rows
    takes the index of [s], its other columns being filled with NaN;
    otherwise [s] is aligned on the index of [df]. *)
Definition setitem (df : Frame cell) (key : string) (s : Series) : Frame cell :=
  match index df with
  | [] =>
      mkFrame (map fst s)
              (set_column key (map snd s)
                 (map (fun c => (fst c, repeat (@None Q) (List.length s))) (columns df)))
  | _ :: _ =>
      mkFrame (index df) (set_column key (reindex (index df) s) (columns df))
  end.

(** [resample_plot(data, how)].  The candlestick chart is drawn from
    the frame and leaves it unchanged; the frame is what is returned. *)
Definition resample_plot (data : Series) (how : rule) : option (Frame cell) :=
  fold_left
    (fun acc kv =>
       df <- acc ;;
       col <- apply_groups (snd kv) (resample how data) ;;
       ret (setitem df (fst kv) col))
    ohlc
    (Some (empty_frame ["open"; "high"; "low"; "close"]%string)).

(** The title lambda of the chart. *)
Definition chart_period (how : rule) : string :=
  match how with
  | W => "week"
  | M => "month"
  end.

Definition OHLC_weekly (fred_data : Frame cell) : option (Frame cell) :=
  daily <- DGS10_daily fred_data ;;
  resample_plot daily W.

Definition OHLC_monthly (fred_data : Frame cell) : option (Frame cell) :=
  daily <- DGS10_daily fred_data ;;
  resample_plot daily M.

(** [DGS10_weekly = OHLC_weekly[['close']]] and its monthly twin. *)
Definition DGS10_weekly (fred_data : Frame cell) : option Series :=
  df <- OHLC_weekly fred_data ;;
  getitem_frame df "close".

Definition DGS10_monthly (fred_data : Frame cell) : option Series :=
  df <- OHLC_monthly fred_data ;;
  getitem_frame df "close".

(** A bar of an OHLC frame: the four cells under one label. *)
Record Bar : Type := mkBar {
  bar_open : cell;
  bar_high : cell;
  bar_low : cell;
  bar_close : cell
}.

(** The bar of [df] at row [i]. *)
Definition bar_at (df : Frame cell) (i : nat) : option Bar :=
  o <- getitem df "open" ;; h <- getitem df "high" ;;
  l <- getitem df "low" ;; c <- getitem df "close" ;;
  o' <- nth_error o i ;; h' <- nth_error h i ;;
  l' <- nth_error l i ;; c' <- nth_error c i ;;
  ret (mkBar o' h' l' c').

(** [a <= b] on cells, false with NaN on either side. *)
Definition cell_le (a b : cell) : Prop :=
  match a, b with
  | Some x, Some y => (x <= y)%Q
  | _, _ => False
  end.

(** The OHLC invariant of a bar. *)
Definition ohlc_invariant (b : Bar) : Prop :=
  cell_le (bar_low b) (bar_open b) /\ cell_le (bar_open b) (bar_high b) /\
  cell_le (bar_low b) (bar_close b) /\ cell_le (bar_close b) (bar_high b).

(** [v] is the greatest, respectively the least, value of group [g]. *)
Definition is_maximum (v : cell) (g : list cell) : Prop :=
  In v g /\ Forall (fun c => cell_le c v) g.

Definition is_minimum (v : cell) (g : list cell) : Prop :=
  In v g /\ Forall (fun c => cell_le v c) g.

(** No value of [g] is missing. *)
Definition no_nan (g : list cell) : Prop := Forall (fun c => c <> None) g.

(** [diff_DGS10_daily], [diff_DGS10_weekly] and [diff_DGS10_monthly]. *)
Definition diff_DGS10_daily (fred_data : Frame cell) : option Series :=
  s <- DGS10_daily fred_data ;; ret (differenced s).

Definition diff_DGS10_weekly (fred_data : Frame cell) : option Series :=
  s <- DGS10_weekly fred_data ;; ret (differenced s).

Definition diff_DGS10_monthly (fred_data : Frame cell) : option Series :=
  s <- DGS10_monthly fred_data ;; ret (differenced s).

(** ** The statsmodels interface *)

(** An [AutoReg] model object: the data and the number of lags it was
    built with. *)
Record AutoRegModel : Type := mkAutoReg {
  endog : list cell;
  lags : nat
}.

(** What the notebook reads from a fitted model. *)
Record AutoRegResults : Type := mkResults {
  params : list Q;
  aic : Q
}.

(** The tuple [adfuller] returns: statistic, p-value, lags used,
    observations, critical values, best information criterion. *)
Definition ADFResult : Type := (Q * Q * Z * Z * list (string * Q) * Q)%type.

(** The library calls whose numbers are left open.  [adfuller] is
    [None] when the call raises (a sample too short for the test);
    [AutoReg_accepts] tells whether the constructor accepts the data
    and the order (it raises otherwise); [AutoReg_fit] is
    [model.fit()], [None] when it raises. *)
Class Statsmodels : Type := {
  adfuller : Series -> option ADFResult;
  AutoReg_accepts : list cell -> nat -> bool;
  AutoReg_fit : AutoRegModel -> option AutoRegResults
}.

(** ** Output and library calls of the cells *)

Inductive event : Type :=
| Call_adfuller (x : Series)
| Print_value (v : Q)
| Print_progress (param : nat) (a : Q).

(** A cell runs over the log of what has been called and printed. *)
Definition notebook : Type -> Type := state (list event).

Definition emit (e : event) : notebook unit :=
  modify (fun log => log ++ [e]) ;; ret tt.

Definition is_adfuller_call (e : event) : bool :=
  match e with
  | Call_adfuller _ => true
  | _ => false
  end.

Definition is_print_value (e : event) : bool :=
  match e with
  | Print_value _ => true
  | _ => false
  end.

(** A run that an exception may end: what was logged before it stays,
    what follows is not run. *)
Definition run : Type -> Type := optionT notebook.

(** The log of a run started on an empty log. *)
Definition log_of {A : Type} (c : run A) : list event :=
  snd (runState (unOptionT c) []).

Section Models.

Context {SM : Statsmodels}.

(** One unit-root cell:
    [adf, p, usedlag, nobs, cvs, aic = adfuller(x); print(p)].
    When the call raises nothing is printed. *)
Definition adfuller_print (x : Series) : run unit :=
  lift (emit (Call_adfuller x)) ;;
  r <- match adfuller x with
       | Some r => ret r
       | None => mzero
       end ;;
  let '(adf, p, usedlag, nobs, cvs, aic) := r in
  lift (emit (Print_value p)).

(** The six unit-root cells run in notebook order; a cell that raises
    ends the run. *)
Definition adf_tests (DGS10_daily DGS10_weekly DGS10_monthly : Series)
  : run unit :=
  adfuller_print DGS10_daily ;;
  adfuller_print DGS10_weekly ;;
  adfuller_print DGS10_monthly ;;
  adfuller_print (dropna (frame_sub (shift1 DGS10_daily) DGS10_daily)) ;;
  adfuller_print (dropna (frame_sub (shift1 DGS10_weekly) DGS10_weekly)) ;;
  adfuller_print (dropna (frame_sub (shift1 DGS10_monthly) DGS10_monthly)).

(** [AutoReg(data, lags, old_names=False)]. *)
Definition AutoReg (data : list cell) (lags : nat) : option AutoRegModel :=
  if AutoReg_accepts data lags then Some (mkAutoReg data lags) else None.

(** The lists and the output of a model-search loop. *)
Record search_state : Type := mkSearch {
  AIC : list Q;
  AR_model : list (list nat);
  stdout : list event
}.

(** The [try] block up to the value of [results.aic]; [None] when
    building or fitting raised. *)
Definition try_order (data : list cell) (param : nat) : option Q :=
  model <- AutoReg data param ;;
  results <- AutoReg_fit model ;;
  ret (aic results).

(** One turn of the loop: the progress line and the two appends, or
    [continue] on any exception. *)
Definition search_step (data : list cell) (st : search_state) (param : nat)
  : search_state :=
  match try_order data param with
  | Some a =>
      mkSearch (AIC st ++ [a]) (AR_model st ++ [[param]])
               (stdout st ++ [Print_progress param a])
  | None => st
  end.

(** [for param in range(0, 25)] from empty lists. *)
Definition grid_search (data : list cell) : search_state :=
  fold_left (search_step data) (seq 0 25) (mkSearch [] [] []).

(** The orders of [ps] whose [try] block went through, each with its
    criterion, in the order of [ps]. *)
Definition recorded (data : list cell) (ps : list nat) : list (nat * Q) :=
  flat_map (fun p => match try_order data p with
                     | Some a => [(p, a)]
                     | None => []
                     end) ps.

(** [l.index(v)]: the first position holding a value equal to [v];
    [ValueError] when there is none. *)
Fixpoint list_index (v : Q) (l : list Q) : option nat :=
  match l with
  | [] => None
  | x :: l' => if Qeq_bool x v then Some 0%nat else option_map S (list_index v l')
  end.

(** What the report cell formats:
    [min(AIC)] and [AR_model[AIC.index(min(AIC))][0]]. *)
Definition smallest_report (st : search_state) : option (Q * nat) :=
  m <- py_extreme Qltb (AIC st) ;;
  i <- list_index m (AIC st) ;;
  entry <- nth_error (AR_model st) i ;;
  p <- nth_error entry 0 ;;
  ret (m, p).

(** The models fitted after each search:
    [AutoReg(diff_DGS10_monthly.values, 0, old_names=False)] and
    [AutoReg(diff_DGS10_weekly.values, 2, old_names=False)]. *)
Definition monthly_model (diff_DGS10_monthly : Series) : option AutoRegModel :=
  AutoReg (values diff_DGS10_monthly) 0.

Definition weekly_model (diff_DGS10_weekly : Series) : option AutoRegModel :=
  AutoReg (values diff_DGS10_weekly) 2.

End Models.

(** The p-value, second component of the tuple of [adfuller]. *)
Definition pvalue (r : ADFResult) : Q :=
  let '(_, p, _, _, _, _) := r in p.

(** The log expected of unit-root cells run one after the other on the
    series [xs]: every call, the p-value after each call that returns,
    nothing after a call that raises. *)
Fixpoint adf_log {SM : Statsmodels} (xs : list Series) : list event :=
  match xs with
  | [] => []
  | x :: xs' =>
      Call_adfuller x
        :: match adfuller x with
           | Some r => Print_value (pvalue r) :: adf_log xs'
           | None => []
           end
  end.

(** ** The characteristic polynomial of the weekly AR(2) model *)

(** The estimates the notebook reads off the summary. *)
Definition phi1_hat : Q := - (1 # 10).
Definition phi2_hat : Q := 4 # 100.

(** Coefficients, constant term first, of
    phi(z) = 1 - phi1 z - phi2 z^2 as the notebook's text writes it. *)
Definition characteristic_polynomial (phi1 phi2 : Q) : list Q :=
  [1; - phi1; - phi2]%Q.

(** The tuple handed to [np.polynomial.polynomial.polyroots]:
    [(1,-0.1,0.04)]. *)
Definition polyroots_argument : list Q := [1; - (1 # 10); 4 # 100]%Q.

(** Value at [z] of the polynomial with coefficients [c], constant term
    first. *)
Definition polyval (c : list Q) (z : Q) : Q :=
  fold_right (fun a acc => a + z * acc)%Q 0%Q c.

(** ** Counting and locating the missing values *)

(** [df.sum()] on a frame of booleans: the number of [True] in every
    column. *)
Definition frame_sum (df : Frame bool) : list (string * nat) :=
  map (fun c => (fst c, List.length (filter (fun b : bool => b) (snd c))))
      (columns df).

(** [df.isna().sum()], as in [fred_data.isna().sum()] and
    [fred_data0.isna().sum()]. *)
Definition isna_sum (df : Frame cell) : list (string * nat) :=
  frame_sum (isna df).

(** The entry of column [name] in such a result. *)
Definition count_of (name : string) (counts : list (string * nat)) : option nat :=
  match find (fun c => String.eqb (fst c) name) counts with
  | Some c => Some (snd c)
  | None => None
  end.

(** [fred_data[fred_data.isna()["DGS10"]==True].index]: the dates
    without a quotation. *)
Definition missing_DGS10_index (fred_data : Frame cell) : option (list Z) :=
  na <- getitem (isna fred_data) "DGS10" ;;
  ret (index (getitem_mask fred_data (map (fun b => Bool.eqb b true) na))).

(** [len(df)]: the number of rows. *)
Definition len {A : Type} (df : Frame A) : nat := List.length (index df).

(** The rows [(s.shift(1) - s).dropna()] keeps of a stretch [s] whose
    first row receives [prev] from the row before it. *)
Definition differenced_after (prev : cell) (s : Series) : Series :=
  dropna (frame_sub (combine (map fst s) (prev :: map snd s)) s).

(** ** Instances used to run the models on concrete data *)

(** Every order is accepted and fits; the criterion is smallest at
    order 1. *)
Definition sm_best_at_1 : Statsmodels := {|
  adfuller := fun _ => Some (0%Q, (1 # 2)%Q, 0, 0, [], 0%Q);
  AutoReg_accepts := fun _ _ => true;
  AutoReg_fit := fun m =>
    Some (mkResults [] (if Nat.eqb (lags m) 1 then 0 else 1)%Q)
|}.

(** The unit-root test raises on fewer than four observations; orders
    above 3 are refused by the constructor, order 1 fails to fit, and
    orders 2 and 3 tie for the smallest criterion. *)
Definition sm_with_failures : Statsmodels := {|
  adfuller := fun x =>
    if Nat.ltb (List.length x) 4 then None
    else Some ((- (3 # 1))%Q, (1 # 100)%Q, 1, Z.of_nat (List.length x), [], 0%Q);
  AutoReg_accepts := fun _ p => Nat.leb p 3;
  AutoReg_fit := fun m =>
    match lags m with
    | 0%nat => Some (mkResults [] (5 # 1))
    | 1%nat => None
    | 2%nat => Some (mkResults [] (8 # 4))
    | _ => Some (mkResults [] (2 # 1))
    end
|}.

(** The first days of 1970 as a table: New Year's Day (day 0, a
    Thursday) has no quotation, and the two-year yield is not yet
    published. *)
Definition fred_sample : Frame cell :=
  mkFrame [0; 1; 4; 5; 6; 7; 8; 11]
    [("DGS2"%string, [None; None; None; None; None; None; None; None]);
     ("DGS10"%string,
      [None; Some (786 # 100); Some (788 # 100); Some (796 # 100);
       Some (799 # 100); Some (796 # 100); Some (789 # 100); Some (779 # 100)])]%Q.

(** Its ten-year column without the missing day. *)
Definition daily_sample : Series :=
  [(1, Some (786 # 100)%Q); (4, Some (788 # 100)%Q); (5, Some (796 # 100)%Q);
   (6, Some (799 # 100)%Q); (7, Some (796 # 100)%Q); (8, Some (789 # 100)%Q);
   (11, Some (779 # 100)%Q)].

(** * Properties *)

(** ** Differencing *)

Lemma differenced_from (prev : Q) (l : list (Z * Q)) :
  dropna (frame_sub (combine (map fst (series_of l))
                             (Some prev :: map snd (series_of l)))
                    (series_of l))
  = series_of (lagged_minus_current_from prev l).
Proof.
  revert prev. induction l as [|[i x] l IH]; intros prev; [reflexivity|].
  cbn. f_equal. apply IH.
Qed.

(** On a series without missing values the code's expression yields,
    under the label of every row t >= 1, the value x_(t-1) - x_t. *)
Lemma differenced_series_of (l : list (Z * Q)) :
  differenced (series_of l) = series_of (lagged_minus_current l).
Proof.
  destruct l as [|[i x] l]; [reflexivity|].
  unfold differenced, shift1. cbn.
  apply differenced_from.
Qed.

Lemma no_nan_series_of (s : Series) :
  Forall (fun r => snd r <> None) s -> exists l, s = series_of l.
Proof.
  induction 1 as [|[i c] s Hc _ [l ->]].
  - exists []. reflexivity.
  - destruct c as [x|]; [|now elim Hc].
    exists ((i, x) :: l). reflexivity.
Qed.

Lemma series_of_length (l : list (Z * Q)) :
  List.length (series_of l) = List.length l.
Proof. apply length_map. Qed.

Lemma series_of_index (l : list (Z * Q)) :
  map fst (series_of l) = map fst l.
Proof. unfold series_of. rewrite map_map. reflexivity. Qed.

Lemma lagged_minus_current_from_index (prev : Q) (l : list (Z * Q)) :
  map fst (lagged_minus_current_from prev l) = map fst l.
Proof.
  revert prev. induction l as [|[i x] l IH]; intros prev; cbn; [reflexivity|].
  now rewrite IH.
Qed.

(** The code's values are the opposites of the first differences. *)
Lemma lagged_minus_current_opposite (l : list (Z * Q)) :
  Forall2 (fun a b => fst a = fst b /\ (snd a == - snd b)%Q)
          (lagged_minus_current l) (first_difference l).
Proof.
  destruct l as [|[i0 x0] l]; [constructor|]. cbn.
  revert x0. induction l as [|[i x] l IH]; intros x0; cbn; constructor.
  - cbn. split; [reflexivity | lra].
  - apply IH.
Qed.

(** C1, not met by the code.  On a series without missing
    values the differenced series of the notebook holds, under the label
    of every row t >= 1, the value x_(t-1) - x_t, the opposite of the
    first difference x_t - x_(t-1).  On the two-row series 1, 3 the
    first difference is 3 - 1 and the notebook's value is 1 - 3: the
    operands of the subtraction are exchanged. *)
Theorem C1_differenced_exchanges_operands :
  (forall l : list (Z * Q),
     differenced (series_of l) = series_of (lagged_minus_current l) /\
     Forall2 (fun a b => fst a = fst b /\ (snd a == - snd b)%Q)
             (lagged_minus_current l) (first_difference l)) /\
  differenced (series_of [(0, 1%Q); (1, 3%Q)]) = series_of [(1, (1 - 3)%Q)] /\
  first_difference [(0, 1%Q); (1, 3%Q)] = [(1, (3 - 1)%Q)] /\
  ~ (1 - 3 == 3 - 1)%Q.
Proof.
  split.
  { intros l. split; [apply differenced_series_of | apply lagged_minus_current_opposite]. }
  split; [reflexivity|]. split; [reflexivity|].
  intros H. vm_compute in H. discriminate H.
Qed.

(** C9.  A series of n >= 1 rows without missing values is differenced
    into n - 1 rows, labelled by the index without its first label. *)
Theorem C9_differenced_length_and_index (s : Series) :
  (1 <= List.length s)%nat ->
  Forall (fun r => snd r <> None) s ->
  List.length (differenced s) = (List.length s - 1)%nat /\
  map fst (differenced s) = tl (map fst s).
Proof.
  intros _ Hs. destruct (no_nan_series_of s Hs) as [l ->].
  assert (Hidx : map fst (differenced (series_of l)) = tl (map fst (series_of l))).
  { rewrite differenced_series_of, !series_of_index.
    destruct l as [|[i0 x0] l]; [reflexivity|].
    cbn. apply lagged_minus_current_from_index. }
  split; [|exact Hidx].
  rewrite <- (length_map fst (differenced _)), Hidx.
  rewrite <- (length_map fst (series_of l)).
  destruct (map fst (series_of l)); cbn; lia.
Qed.

Lemma C9_witness :
  List.length (differenced [(0, Some 4%Q); (1, Some 3%Q); (4, Some 5%Q)])
  = 2%nat /\
  map fst (differenced [(0, Some 4%Q); (1, Some 3%Q); (4, Some 5%Q)])
  = [1; 4].
Proof.
  apply (C9_differenced_length_and_index
           [(0, Some 4%Q); (1, Some 3%Q); (4, Some 5%Q)]).
  - cbn. lia.
  - repeat constructor; discriminate.
Defined.

(** ** The filtered table *)

Lemma getitem_isna (df : Frame cell) (name : string) :
  getitem (isna df) name = option_map (map isna_cell) (getitem df name).
Proof.
  unfold getitem, isna. cbn.
  induction (columns df) as [|[n c] cols IH]; cbn; [reflexivity|].
  destruct (String.eqb n name); [reflexivity | exact IH].
Qed.

Lemma column_position_getitem {A : Type} (df : Frame A) (name : string) (j : nat) :
  column_position name (map fst (columns df)) = Some j ->
  exists c, getitem df name = Some c /\ nth_error (map snd (columns df)) j = Some c.
Proof.
  unfold getitem. revert j.
  induction (columns df) as [|[n c] cols IH]; intros j; cbn; [discriminate|].
  destruct (String.eqb n name).
  - intros [= <-]. exists c. split; reflexivity.
  - destruct (column_position name (map fst cols)) as [k|]; [|discriminate].
    intros [= <-]. destruct (IH k eq_refl) as [c' [H1 H2]].
    exists c'. split; assumption.
Qed.

Lemma select_map_filter {A : Type} (f : A -> bool) (l : list A) :
  select (map f l) l = filter f l.
Proof.
  induction l as [|x l IH]; cbn; [reflexivity|].
  rewrite IH. reflexivity.
Qed.

Lemma rows_of_select (mask : list bool) (idx : list Z) (cols : list (list cell)) :
  List.length mask = List.length idx ->
  Forall (fun c => List.length c = List.length idx) cols ->
  rows_of (select mask idx) (map (select mask) cols)
  = select mask (rows_of idx cols).
Proof.
  revert idx cols.
  induction mask as [|b mask IH]; intros [|i idx] cols Hm Hc;
    try discriminate; [reflexivity|].
  cbn in Hm. injection Hm as Hm.
  assert (Htl : Forall (fun c => List.length c = List.length idx) (map (@tl cell) cols)).
  { rewrite Forall_map. revert Hc. apply Forall_impl.
    intros [|x c]; cbn; [discriminate | congruence]. }
  specialize (IH idx (map (@tl cell) cols) Hm Htl).
  assert (Hskip : map (select (false :: mask)) cols
                  = map (select mask) (map (@tl cell) cols)).
  { rewrite map_map. apply map_ext_Forall. revert Hc. apply Forall_impl.
    intros [|x c]; cbn; [discriminate | reflexivity]. }
  assert (Hhd : map (fun c => hd None c) (map (select (true :: mask)) cols)
                = map (fun c => hd None c) cols).
  { rewrite map_map. apply map_ext_Forall. revert Hc. apply Forall_impl.
    intros [|x c]; cbn; [discriminate | reflexivity]. }
  assert (Hkeep : map (@tl cell) (map (select (true :: mask)) cols)
                  = map (select mask) (map (@tl cell) cols)).
  { rewrite !map_map. apply map_ext_Forall. revert Hc. apply Forall_impl.
    intros [|x c]; cbn; [discriminate | reflexivity]. }
  destruct b.
  - change (select (true :: mask) (i :: idx)) with (i :: select mask idx).
    change (rows_of (i :: idx) cols)
      with ((i, map (fun c => hd None c) cols) :: rows_of idx (map (@tl cell) cols)).
    change (select (true :: mask) ((i, map (fun c => hd None c) cols)
                                     :: rows_of idx (map (@tl cell) cols)))
      with ((i, map (fun c => hd None c) cols)
              :: select mask (rows_of idx (map (@tl cell) cols))).
    rewrite <- IH.
    change (rows_of (i :: select mask idx) (map (select (true :: mask)) cols))
      with ((i, map (fun c => hd None c) (map (select (true :: mask)) cols))
              :: rows_of (select mask idx)
                   (map (@tl cell) (map (select (true :: mask)) cols))).
    rewrite Hhd, Hkeep. reflexivity.
  - change (select (false :: mask) (i :: idx)) with (select mask idx).
    rewrite Hskip, IH. reflexivity.
Qed.

Lemma rows_of_column (j : nat) (idx : list Z) (cols : list (list cell))
      (c : list cell) :
  nth_error cols j = Some c ->
  List.length c = List.length idx ->
  map (fun r => nth j (snd r) None) (rows_of idx cols) = c.
Proof.
  revert cols c. induction idx as [|i idx IH]; intros cols c Hj Hlen.
  - destruct c; [reflexivity | discriminate].
  - destruct c as [|x c]; [discriminate|]. cbn. apply (f_equal2 cons).
    + apply nth_error_nth.
      exact (map_nth_error (fun c0 => hd None c0) j cols Hj).
    + apply IH.
      * exact (map_nth_error (@tl (option Q)) j cols Hj).
      * cbn in Hlen. congruence.
Qed.

(** C7.  When the table has a DGS10 column, [fred_data0] has the same
    columns and its rows are the rows of the table whose DGS10 cell is
    not missing, in their order and unchanged; a row missing values in
    other columns only is among them. *)
Theorem C7_fred_data0_rows (fred_data : Frame cell) (j : nat) :
  rectangular fred_data ->
  column_position "DGS10" (map fst (columns fred_data)) = Some j ->
  exists df0,
    fred_data0 fred_data = Some df0 /\
    map fst (columns df0) = map fst (columns fred_data) /\
    rows df0
    = filter (fun r => negb (isna_cell (nth j (snd r) None))) (rows fred_data) /\
    (forall r, In r (rows fred_data) -> nth j (snd r) None <> None ->
               In r (rows df0)).
Proof.
  intros Hrect Hj.
  destruct (column_position_getitem fred_data "DGS10" j Hj) as [c [Hget Hnth]].
  unfold fred_data0. rewrite getitem_isna, Hget. cbn.
  eexists. split; [reflexivity|].
  assert (Hlen : List.length c = List.length (index fred_data)).
  { unfold rectangular in Hrect. rewrite Forall_forall in Hrect.
    apply nth_error_In in Hnth. apply in_map_iff in Hnth.
    destruct Hnth as [[n c'] [<- Hin]]. apply (Hrect _ Hin). }
  assert (Hrows : rows (getitem_mask fred_data
                          (map (fun b => Bool.eqb b false) (map isna_cell c)))
                  = filter (fun r => negb (isna_cell (nth j (snd r) None)))
                           (rows fred_data)).
  { unfold rows, getitem_mask. cbn [index columns].
    set (mask := map (fun b => Bool.eqb b false) (map isna_cell c)).
    rewrite map_map. cbn [snd].
    rewrite <- (map_map snd (select mask)).
    rewrite rows_of_select; subst mask.
    - rewrite <- select_map_filter. f_equal.
      rewrite <- (rows_of_column j (index fred_data) (map snd (columns fred_data)) c
                    Hnth Hlen) at 1.
      rewrite !map_map. apply map_ext. intros r.
      now destruct (isna_cell (nth j (snd r) None)).
    - rewrite !length_map. exact Hlen.
    - rewrite Forall_map. exact Hrect. }
  split; [|split].
  - unfold getitem_mask. cbn. rewrite map_map. reflexivity.
  - exact Hrows.
  - intros r Hin Hr. rewrite Hrows. apply filter_In. split; [exact Hin|].
    destruct (nth j (snd r) None) eqn:E; [|now elim Hr].
    unfold cell in *. rewrite E. reflexivity.
Qed.

Lemma C7_witness :
  rectangular fred_sample /\
  column_position "DGS10" (map fst (columns fred_sample)) = Some 1%nat /\
  exists df0, fred_data0 fred_sample = Some df0 /\
              rows df0 = tl (rows fred_sample).
Proof.
  assert (H1 : rectangular fred_sample) by (repeat constructor).
  assert (H2 : column_position "DGS10" (map fst (columns fred_sample)) = Some 1%nat)
    by reflexivity.
  split; [exact H1|]. split; [exact H2|].
  destruct (C7_fred_data0_rows fred_sample 1 H1 H2) as (df0 & E & _ & R & _).
  exists df0. split; [exact E|]. rewrite R. reflexivity.
Defined.

(** ** The aggregators of a bar *)

Lemma Qltb_true (x y : Q) : Qltb x y = true -> (x < y)%Q.
Proof.
  unfold Qltb. intros H. apply negb_true_iff in H.
  apply Qnot_le_lt. intros Hle. apply Qle_bool_iff in Hle. congruence.
Qed.

Lemma Qltb_false (x y : Q) : Qltb x y = false -> (y <= x)%Q.
Proof.
  unfold Qltb. intros H. apply negb_false_iff in H.
  now apply Qle_bool_iff.
Qed.

Lemma cell_le_refl (x : Q) : cell_le (Some x) (Some x).
Proof. cbn. apply Qle_refl. Qed.

Lemma cell_le_trans (a b c : cell) : cell_le a b -> cell_le b c -> cell_le a c.
Proof.
  destruct a as [x|], b as [y|], c as [z|]; cbn; try tauto.
  apply Qle_trans.
Qed.

Section Extreme.

Context {A : Type} (better : A -> A -> bool).
Variable R : A -> A -> Prop.
Variable D : A -> Prop.
Hypothesis R_refl : forall x, D x -> R x x.
Hypothesis R_trans : forall x y z, R x y -> R y z -> R x z.
Hypothesis better_true : forall x y, D x -> D y -> better y x = true -> R x y.
Hypothesis better_false : forall x y, D x -> D y -> better y x = false -> R y x.

(** The running candidate of [max] or [min] is one of the values seen
    and every value seen is related to it. *)
Lemma fold_extreme_spec (l : list A) (x : A) :
  Forall D (x :: l) ->
  In (fold_left (fun cur y => if better y cur then y else cur) l x) (x :: l) /\
  Forall (fun c => R c (fold_left (fun cur y => if better y cur then y else cur) l x))
         (x :: l).
Proof.
  revert x. induction l as [|y l IH]; intros x Hd.
  - inversion Hd; subst. cbn. split; [now left|]. constructor; auto.
  - inversion Hd as [|? ? Hx Hd']; subst. inversion Hd' as [|? ? Hy Hl]; subst.
    cbn [fold_left]. destruct (better y x) eqn:E.
    + destruct (IH y Hd') as [Hin Hall]. split; [now right|].
      constructor; [|exact Hall].
      inversion Hall as [|? ? Hy' _]; subst.
      apply R_trans with (y := y); [|exact Hy']. now apply better_true.
    + assert (Hd'' : Forall D (x :: l)) by (constructor; assumption).
      destruct (IH x Hd'') as [Hin Hall]. split.
      * destruct Hin as [<- | Hin]; [now left | right; now right].
      * inversion Hall as [|? ? Hx' Hl']; subst.
        constructor; [exact Hx'|]. constructor; [|exact Hl'].
        apply R_trans with (y := x); [|exact Hx']. now apply better_false.
Qed.

Lemma py_extreme_spec (l : list A) (m : A) :
  Forall D l -> py_extreme better l = Some m ->
  In m l /\ Forall (fun c => R c m) l.
Proof.
  destruct l as [|x l]; [discriminate|].
  intros Hd [= <-]. now apply fold_extreme_spec.
Qed.

End Extreme.

Lemma py_max_spec (g : list cell) (v : cell) :
  no_nan g -> py_max g = Some v -> is_maximum v g.
Proof.
  apply (py_extreme_spec cell_gtb (fun c m => cell_le c m) (fun c => c <> None)).
  - intros [x|] Hx; [apply cell_le_refl | now elim Hx].
  - apply cell_le_trans.
  - intros [x|] [y|] Hx Hy; try (now elim Hx); try (now elim Hy).
    unfold cell_gtb. cbn. intros E. apply Qltb_true in E. lra.
  - intros [x|] [y|] Hx Hy; try (now elim Hx); try (now elim Hy).
    unfold cell_gtb. cbn. intros E. now apply Qltb_false in E.
Qed.

Lemma py_min_spec (g : list cell) (v : cell) :
  no_nan g -> py_min g = Some v -> is_minimum v g.
Proof.
  apply (py_extreme_spec cell_ltb (fun c m => cell_le m c) (fun c => c <> None)).
  - intros [x|] Hx; [apply cell_le_refl | now elim Hx].
  - intros x y z H1 H2. now apply cell_le_trans with (b := y).
  - intros [x|] [y|] Hx Hy; try (now elim Hx); try (now elim Hy).
    cbn. intros E. apply Qltb_true in E. lra.
  - intros [x|] [y|] Hx Hy; try (now elim Hx); try (now elim Hy).
    cbn. intros E. now apply Qltb_false in E.
Qed.

Lemma getitem_m1_spec (g : list cell) (v : cell) :
  getitem_m1 g = Some v -> exists g', g = g' ++ [v].
Proof.
  unfold getitem_m1. intros H.
  destruct (rev g) as [|x r] eqn:E; [discriminate|].
  cbn in H. injection H as ->.
  exists (rev r). rewrite <- (rev_involutive g), E. reflexivity.
Qed.

Lemma aggregators_total (g : list cell) :
  g <> [] ->
  exists o h l c,
    getitem_0 g = Some o /\ py_max g = Some h /\
    py_min g = Some l /\ getitem_m1 g = Some c.
Proof.
  intros Hg. destruct g as [|x g]; [now elim Hg|].
  unfold getitem_m1.
  destruct (rev (x :: g)) as [|y r] eqn:E.
  - apply (f_equal (@List.length cell)) in E. rewrite length_rev in E. discriminate.
  - do 4 eexists. repeat split; reflexivity.
Qed.

(** ** Resampling into bars *)

Lemma apply_groups_spec (f : list cell -> option cell)
      (groups : list (Z * list cell)) (col : Series) :
  apply_groups f groups = Some col ->
  Forall2 (fun pg pv => fst pv = fst pg /\ f (snd pg) = Some (snd pv)) groups col.
Proof.
  revert col. induction groups as [|[p g] groups IH]; intros col; cbn.
  - intros [= <-]. constructor.
  - destruct (f g) as [v|] eqn:Ef; [|discriminate].
    destruct (apply_groups f groups) as [r|]; [|discriminate].
    intros [= <-]. constructor; [now split | now apply IH].
Qed.

Lemma apply_groups_total (f : list cell -> option cell)
      (groups : list (Z * list cell)) :
  Forall (fun pg => f (snd pg) <> None) groups ->
  exists col, apply_groups f groups = Some col.
Proof.
  induction 1 as [|[p g] groups Hf _ [r IH]]; cbn.
  - now exists [].
  - cbn in Hf. destruct (f g) as [v|]; [|now elim Hf].
    rewrite IH. now eexists.
Qed.

Lemma Forall2_index (groups : list (Z * list cell)) (col : Series)
      (P : list cell -> cell -> Prop) :
  Forall2 (fun pg pv => fst pv = fst pg /\ P (snd pg) (snd pv)) groups col ->
  map fst col = map fst groups.
Proof.
  induction 1 as [|pg pv groups col [H _] _ IH]; cbn; [reflexivity|].
  now rewrite H, IH.
Qed.

Lemma Forall2_row (groups : list (Z * list cell)) (col : Series)
      (P : list cell -> cell -> Prop) (i : nat) (p : Z) (g : list cell) :
  Forall2 (fun pg pv => fst pv = fst pg /\ P (snd pg) (snd pv)) groups col ->
  nth_error groups i = Some (p, g) ->
  exists v, nth_error (map snd col) i = Some v /\ P g v.
Proof.
  intros H. revert i. induction H as [|pg pv groups col [_ HP] _ IH]; intros i.
  - destruct i; discriminate.
  - destruct i as [|i]; cbn.
    + intros [= ->]. exists (snd pv). split; [reflexivity | exact HP].
    + apply IH.
Qed.

Lemma apply_groups_index (f : list cell -> option cell)
      (groups : list (Z * list cell)) (col : Series) :
  apply_groups f groups = Some col -> map fst col = map fst groups.
Proof.
  intros H. apply (Forall2_index groups col (fun g v => f g = Some v)).
  now apply apply_groups_spec.
Qed.

Lemma apply_groups_row (f : list cell -> option cell)
      (groups : list (Z * list cell)) (col : Series)
      (i : nat) (p : Z) (g : list cell) :
  apply_groups f groups = Some col ->
  nth_error groups i = Some (p, g) ->
  exists v, nth_error (map snd col) i = Some v /\ f g = Some v.
Proof.
  intros H. apply (Forall2_row groups col (fun g v => f g = Some v)).
  now apply apply_groups_spec.
Qed.

Lemma reindex_self (s : Series) :
  NoDup (map fst s) -> reindex (map fst s) s = map snd s.
Proof.
  induction s as [|[i v] s IH]; intros Hnd; [reflexivity|].
  cbn in Hnd. inversion Hnd as [|? ? Hnotin Hnd']; subst.
  unfold reindex. cbn [map find fst snd]. rewrite Z.eqb_refl. f_equal.
  rewrite <- (IH Hnd'). unfold reindex. apply map_ext_in.
  intros l Hl. destruct (Z.eqb_spec i l) as [->|_]; [now elim Hnotin | reflexivity].
Qed.

Lemma zrange_NoDup (lo hi : Z) : NoDup (zrange lo hi).
Proof.
  unfold zrange. apply Injective_map_NoDup.
  - intros x y H. lia.
  - apply seq_NoDup.
Qed.

Lemma resample_index_NoDup (how : rule) (data : Series) :
  NoDup (map fst (resample how data)).
Proof.
  unfold resample. destruct (map fst data) as [|d ds]; [constructor|].
  rewrite map_map. cbn [fst]. rewrite map_id. apply zrange_NoDup.
Qed.

(** The group of a sub-period holds the values of the rows that fall
    in it, in index order. *)
Lemma resample_group (how : rule) (data : Series) (p : Z) (g : list cell) :
  In (p, g) (resample how data) ->
  g = map snd (filter (fun r => period_of how (fst r) =? p) data).
Proof.
  unfold resample. destruct (map fst data) as [|d ds]; [intros []|].
  intros H. apply in_map_iff in H. destruct H as [q [[= -> <-] _]].
  reflexivity.
Qed.

Lemma resample_group_incl (how : rule) (data : Series) (p : Z) (g : list cell) :
  In (p, g) (resample how data) -> incl g (map snd data).
Proof.
  intros H c Hc. rewrite (resample_group how data p g H) in Hc.
  apply in_map_iff in Hc. destruct Hc as [r [<- Hr]].
  apply filter_In in Hr. apply in_map. tauto.
Qed.

Lemma setitem_aligned (df : Frame cell) (key : string) (s : Series) :
  index df <> [] -> map fst s = index df -> NoDup (index df) ->
  setitem df key s = mkFrame (index df) (set_column key (map snd s) (columns df)).
Proof.
  intros Hne Hidx Hnd. unfold setitem.
  destruct (index df) as [|i idx] eqn:E; [now elim Hne|].
  rewrite <- Hidx, reindex_self; [reflexivity|].
  rewrite Hidx. exact Hnd.
Qed.

(** The frame [resample_plot] returns: the sub-periods as index and,
    under each of the four names, the value of its aggregator on every
    group. *)
Lemma resample_plot_spec (data : Series) (how : rule) (df : Frame cell) :
  resample_plot data how = Some df ->
  exists o h l c,
    apply_groups getitem_0 (resample how data) = Some o /\
    apply_groups py_max (resample how data) = Some h /\
    apply_groups py_min (resample how data) = Some l /\
    apply_groups getitem_m1 (resample how data) = Some c /\
    index df = map fst (resample how data) /\
    getitem df "open" = Some (map snd o) /\
    getitem df "high" = Some (map snd h) /\
    getitem df "low" = Some (map snd l) /\
    getitem df "close" = Some (map snd c).
Proof.
  unfold resample_plot, ohlc. cbn [fold_left fst snd].
  pose proof (resample_index_NoDup how data) as Hnd.
  set (G := resample how data) in *.
  cbn [bind ret Monad_option].
  destruct (apply_groups getitem_0 G) as [o|] eqn:Eo; [|discriminate].
  destruct (apply_groups py_max G) as [h|] eqn:Eh; [|discriminate].
  destruct (apply_groups py_min G) as [l|] eqn:El; [|discriminate].
  destruct (apply_groups getitem_m1 G) as [c|] eqn:Ec; [|discriminate].
  intros [= <-]. exists o, h, l, c.
  pose proof (apply_groups_index _ _ _ Eo) as Io.
  pose proof (apply_groups_index _ _ _ Eh) as Ih.
  pose proof (apply_groups_index _ _ _ El) as Il.
  pose proof (apply_groups_index _ _ _ Ec) as Ic.
  do 4 (split; [reflexivity|]).
  destruct o as [|[p v] o].
  - destruct G as [|? ?]; [|discriminate Io].
    destruct h; [|discriminate Ih]. destruct l; [|discriminate Il].
    destruct c; [|discriminate Ic].
    cbn. repeat split; reflexivity.
  - remember (setitem (empty_frame ["open"; "high"; "low"; "close"]%string)
                      "open" ((p, v) :: o)) as df1 eqn:Edf1.
    assert (H1 : index df1 = map fst G) by (rewrite <- Io, Edf1; reflexivity).
    assert (Hne : map fst G <> []) by (rewrite <- Io; discriminate).
    rewrite (setitem_aligned df1 "high" h);
      [|rewrite H1; assumption | congruence | rewrite H1; assumption].
    rewrite (setitem_aligned _ "low" l); cbn [index];
      [|rewrite H1; assumption | congruence | rewrite H1; assumption].
    rewrite (setitem_aligned _ "close" c); cbn [index];
      [|rewrite H1; assumption | congruence | rewrite H1; assumption].
    split; [exact H1|].
    rewrite Edf1. cbn. repeat split; reflexivity.
Qed.

Lemma resample_plot_total (data : Series) (how : rule) :
  Forall (fun pg => snd pg <> []) (resample how data) ->
  exists df, resample_plot data how = Some df.
Proof.
  intros Hne.
  assert (Hf : forall f, (forall g, g <> [] -> f g <> None) ->
                    exists col, apply_groups f (resample how data) = Some col).
  { intros f Hf. apply apply_groups_total. revert Hne. apply Forall_impl.
    intros pg. apply Hf. }
  destruct (Hf getitem_0) as [o Eo].
  { intros g Hg. destruct (aggregators_total g Hg) as (? & ? & ? & ? & -> & _). discriminate. }
  destruct (Hf py_max) as [h Eh].
  { intros g Hg. destruct (aggregators_total g Hg) as (? & ? & ? & ? & _ & -> & _). discriminate. }
  destruct (Hf py_min) as [l El].
  { intros g Hg. destruct (aggregators_total g Hg) as (? & ? & ? & ? & _ & _ & -> & _). discriminate. }
  destruct (Hf getitem_m1) as [c Ec].
  { intros g Hg. destruct (aggregators_total g Hg) as (? & ? & ? & ? & _ & _ & _ & ->). discriminate. }
  unfold resample_plot, ohlc. cbn [fold_left fst snd bind ret Monad_option].
  rewrite Eo, Eh, El, Ec. now eexists.
Qed.

(** The bar of a returned frame at a sub-period, for data without
    missing values. *)
Lemma resample_plot_bar (data : Series) (how : rule) (df : Frame cell)
      (i : nat) (p : Z) (g : list cell) :
  no_nan (map snd data) ->
  resample_plot data how = Some df ->
  nth_error (resample how data) i = Some (p, g) ->
  exists b, bar_at df i = Some b /\
            getitem_0 g = Some (bar_open b) /\
            is_maximum (bar_high b) g /\
            is_minimum (bar_low b) g /\
            getitem_m1 g = Some (bar_close b).
Proof.
  intros Hn Hdf Hi.
  destruct (resample_plot_spec data how df Hdf)
    as (o & h & l & c & Eo & Eh & El & Ec & _ & Go & Gh & Gl & Gc).
  destruct (apply_groups_row _ _ _ i p g Eo Hi) as [vo [No Ao]].
  destruct (apply_groups_row _ _ _ i p g Eh Hi) as [vh [Nh Ah]].
  destruct (apply_groups_row _ _ _ i p g El Hi) as [vl [Nl Al]].
  destruct (apply_groups_row _ _ _ i p g Ec Hi) as [vc [Nc Ac]].
  assert (Hg : no_nan g).
  { unfold no_nan in *. rewrite Forall_forall in *. intros x Hx. apply Hn.
    apply (resample_group_incl how data p g); [|exact Hx].
    eapply nth_error_In. exact Hi. }
  exists (mkBar vo vh vl vc). split.
  - unfold bar_at. rewrite Go, Gh, Gl, Gc. cbn [bind ret Monad_option].
    rewrite No, Nh, Nl, Nc. reflexivity.
  - cbn [bar_open bar_high bar_low bar_close].
    repeat split; try assumption.
    + now apply py_max_spec.
    + now apply py_max_spec.
    + now apply py_min_spec.
    + now apply py_min_spec.
Qed.

Lemma getitem_getitem_mask {A : Type} (df : Frame A) (mask : list bool)
      (name : string) :
  getitem (getitem_mask df mask) name = option_map (select mask) (getitem df name).
Proof.
  unfold getitem, getitem_mask. cbn.
  induction (columns df) as [|[n c] cols IH]; cbn; [reflexivity|].
  destruct (String.eqb n name); [reflexivity | exact IH].
Qed.

Lemma select_not_missing (c : list cell) :
  no_nan (select (map (fun b => Bool.eqb b false) (map isna_cell c)) c).
Proof.
  induction c as [|[x|] c IH]; cbn; [constructor | | exact IH].
  constructor; [discriminate | exact IH].
Qed.

(** [DGS10_daily] holds no missing value. *)
Lemma DGS10_daily_no_nan (fred_data : Frame cell) (daily : Series) :
  DGS10_daily fred_data = Some daily -> no_nan (map snd daily).
Proof.
  unfold DGS10_daily, fred_data0, getitem_frame.
  rewrite getitem_isna.
  destruct (getitem fred_data "DGS10") as [c|] eqn:E; [|discriminate].
  cbn [option_map bind ret Monad_option].
  rewrite getitem_getitem_mask, E. cbn [option_map].
  intros [= <-].
  pose proof (select_not_missing c) as H.
  unfold no_nan in *. rewrite Forall_forall in *.
  intros x Hx. apply in_map_iff in Hx. destruct Hx as [[i y] [<- Hin]].
  apply H. apply in_combine_r in Hin. exact Hin.
Qed.

(** ** Dates and sub-periods *)

Lemma fold_min_head (d : Z) (ds : list Z) :
  Forall (fun x => d <= x) ds -> fold_left Z.min ds d = d.
Proof.
  induction 1 as [|x ds Hx _ IH]; [reflexivity|].
  cbn. rewrite Z.min_l; assumption.
Qed.

Lemma last_cons {A : Type} (x d : A) (l : list A) : last (x :: l) d = last l x.
Proof.
  revert x d. induction l as [|y l IH]; intros x d; [reflexivity|].
  change (last (x :: y :: l) d) with (last (y :: l) d). rewrite !IH. reflexivity.
Qed.

Lemma fold_max_last (d : Z) (ds : list Z) :
  StronglySorted Z.le (d :: ds) -> fold_left Z.max ds d = last ds d.
Proof.
  revert d. induction ds as [|x ds IH]; intros d Hs; [reflexivity|].
  inversion Hs as [|? ? Hs' Hall]; subst. inversion Hall as [|? ? Hx _]; subst.
  cbn [fold_left]. rewrite Z.max_r by exact Hx.
  rewrite (IH x Hs'). symmetry. apply last_cons.
Qed.

Lemma Sorted_le_strongly (l : list Z) : Sorted Z.le l -> StronglySorted Z.le l.
Proof. apply Sorted_StronglySorted. intros x y z. apply Z.le_trans. Qed.

Lemma zrange_length (lo hi : Z) :
  List.length (zrange lo hi) = Z.to_nat (hi - lo + 1).
Proof. unfold zrange. now rewrite length_map, length_seq. Qed.

Lemma fold_min_le (ds : list Z) (d : Z) :
  fold_left Z.min ds d <= d /\ Forall (fun x => fold_left Z.min ds d <= x) ds.
Proof.
  revert d. induction ds as [|x ds IH]; intros d; cbn; [split; [lia | constructor]|].
  destruct (IH (Z.min d x)) as [H1 H2]. split; [lia|]. constructor; [lia | exact H2].
Qed.

Lemma fold_max_ge (ds : list Z) (d : Z) :
  d <= fold_left Z.max ds d /\ Forall (fun x => x <= fold_left Z.max ds d) ds.
Proof.
  revert d. induction ds as [|x ds IH]; intros d; cbn; [split; [lia | constructor]|].
  destruct (IH (Z.max d x)) as [H1 H2]. split; [lia|]. constructor; [lia | exact H2].
Qed.













(** C10.  In the frame [resample_plot] returns for the daily series of
    the notebook, the bar of every non-empty sub-period has
    low <= open <= high and low <= close <= high. *)
Theorem C10_bars_ohlc_invariant (fred_data : Frame cell) (daily : Series)
        (how : rule) (df : Frame cell) :
  DGS10_daily fred_data = Some daily ->
  resample_plot daily how = Some df ->
  forall i p g,
    nth_error (resample how daily) i = Some (p, g) -> g <> [] ->
    exists b, bar_at df i = Some b /\ ohlc_invariant b.
Proof.
  intros Hdaily Hdf i p g Hi _.
  destruct (resample_plot_bar daily how df i p g
              (DGS10_daily_no_nan _ _ Hdaily) Hdf Hi)
    as (b & Hb & Ho & [_ Hh] & [_ Hl] & Hc).
  exists b. split; [exact Hb|].
  assert (Hino : In (bar_open b) g).
  { destruct g; [discriminate Ho|]. injection Ho as <-. now left. }
  assert (Hinc : In (bar_close b) g).
  { destruct (getitem_m1_spec g _ Hc) as [g' ->]. apply in_or_app. right. now left. }
  rewrite Forall_forall in Hh, Hl.
  unfold ohlc_invariant. repeat split; auto.
Qed.

Lemma C10_witness :
  exists df, resample_plot daily_sample M = Some df /\
    exists b, bar_at df 0 = Some b /\ ohlc_invariant b.
Proof.
  eexists. split; [reflexivity|].
  apply (C10_bars_ohlc_invariant fred_sample daily_sample M _ eq_refl eq_refl
           0%nat 23640 (map snd daily_sample)).
  - reflexivity.
  - discriminate.
Defined.

(** ** The model-search loop *)

Section Search.

Context {SM : Statsmodels}.
Variable data : list cell.

Lemma try_order_None (p : nat) :
  try_order data p = None <->
  AutoReg_accepts data p = false \/ AutoReg_fit (mkAutoReg data p) = None.
Proof.
  unfold try_order, AutoReg.
  destruct (AutoReg_accepts data p); cbn.
  - destruct (AutoReg_fit (mkAutoReg data p)); split; intros H;
      try discriminate; auto.
    destruct H; discriminate.
  - split; auto.
Qed.

(** The loop appends to the three lists what [recorded] lists. *)
Lemma search_fold (ps : list nat) (st : search_state) :
  fold_left (search_step data) ps st
  = mkSearch (AIC st ++ map snd (recorded data ps))
             (AR_model st ++ map (fun pa => [fst pa]) (recorded data ps))
             (stdout st ++ map (fun pa => Print_progress (fst pa) (snd pa))
                               (recorded data ps)).
Proof.
  revert st. induction ps as [|p ps IH]; intros st.
  - cbn. rewrite !app_nil_r. now destruct st.
  - cbn [fold_left]. rewrite IH. unfold search_step, recorded. cbn [flat_map].
    destruct (try_order data p) as [a|]; [|reflexivity].
    cbn [AIC AR_model stdout app map fst snd].
    rewrite <- !app_assoc. reflexivity.
Qed.

Lemma grid_search_recorded :
  grid_search data
  = mkSearch (map snd (recorded data (seq 0 25)))
             (map (fun pa => [fst pa]) (recorded data (seq 0 25)))
             (map (fun pa => Print_progress (fst pa) (snd pa))
                  (recorded data (seq 0 25))).
Proof. unfold grid_search. rewrite search_fold. reflexivity. Qed.

Lemma recorded_In (ps : list nat) (p : nat) (a : Q) :
  In (p, a) (recorded data ps) <-> In p ps /\ try_order data p = Some a.
Proof.
  unfold recorded. rewrite in_flat_map. split.
  - intros [q [Hq Hin]]. destruct (try_order data q) as [b|] eqn:E; [|destruct Hin].
    destruct Hin as [[= <- <-]|[]]. now split.
  - intros [Hp E]. exists p. split; [exact Hp|]. rewrite E. now left.
Qed.

Lemma recorded_sorted (ps : list nat) :
  StronglySorted lt ps -> StronglySorted lt (map fst (recorded data ps)).
Proof.
  induction 1 as [|p ps Hs IH Hall]; [constructor|].
  unfold recorded. cbn [flat_map]. fold (recorded data ps).
  destruct (try_order data p) as [a|]; [|exact IH].
  cbn. constructor; [exact IH|].
  rewrite Forall_forall in *. intros q Hq.
  apply in_map_iff in Hq. destruct Hq as [[q' b] [<- Hin]].
  apply (proj1 (recorded_In ps q' b)) in Hin. apply Hall. tauto.
Qed.

End Search.

Lemma seq_sorted (a n : nat) : StronglySorted lt (seq a n).
Proof.
  revert a. induction n as [|n IH]; intros a; cbn; constructor; [apply IH|].
  rewrite Forall_forall. intros x Hx. apply in_seq in Hx. lia.
Qed.

Lemma list_index_total (m : Q) (l : list Q) :
  In m l -> exists i, list_index m l = Some i.
Proof.
  induction l as [|x l IH]; [intros []|]. intros Hin. cbn.
  destruct (Qeq_bool x m) eqn:E; [now exists 0%nat|].
  destruct Hin as [->|Hin].
  - rewrite (proj2 (Qeq_bool_iff m m) (Qeq_refl m)) in E. discriminate.
  - destruct (IH Hin) as [i ->]. now exists (S i).
Qed.

(** In a list of orders and criteria with increasing orders, the entry
    at [index(m)] has a criterion equal to [m] and no entry of a smaller
    order has. *)
Lemma list_index_first (R : list (nat * Q)) (m : Q) (i : nat) :
  StronglySorted lt (map fst R) ->
  list_index m (map snd R) = Some i ->
  exists p a, nth_error R i = Some (p, a) /\ (a == m)%Q /\
              forall q b, In (q, b) R -> (q < p)%nat -> ~ (b == m)%Q.
Proof.
  revert i. induction R as [|[p0 a0] R IH]; intros i Hs; [discriminate|].
  cbn in Hs. inversion Hs as [|? ? Hs' Hall]; subst.
  cbn [map snd list_index]. destruct (Qeq_bool a0 m) eqn:E.
  - intros [= <-]. exists p0, a0. split; [reflexivity|].
    split; [now apply Qeq_bool_iff|].
    intros q b [[= -> ->]|Hin] Hlt; [lia|].
    rewrite Forall_forall in Hall.
    specialize (Hall q (in_map fst _ _ Hin)). cbn in Hall. lia.
  - destruct (list_index m (map snd R)) as [k|] eqn:Ek; [|discriminate].
    intros [= <-]. destruct (IH k Hs' eq_refl) as (p & a & Hn & Ha & Hfirst).
    exists p, a. split; [exact Hn|]. split; [exact Ha|].
    intros q b [[= -> ->]|Hin] Hlt.
    + intros Hb. apply Qeq_bool_iff in Hb. congruence.
    + exact (Hfirst q b Hin Hlt).
Qed.

(** C6.  A candidate order whose model cannot be built or fitted leaves
    the lists as they are and the loop goes on with the next order;
    after the loop [AIC] and [AR_model] have the same length, the entry
    of [AR_model] at a position is one order that was fitted and the
    entry of [AIC] at that position is its criterion, and the orders
    listed are those, among 0..24, that were fitted. *)
Theorem C6_failed_orders_are_skipped {SM : Statsmodels} (data : list cell) :
  (forall p, try_order data p = None <->
             AutoReg_accepts data p = false \/
             AutoReg_fit (mkAutoReg data p) = None) /\
  (forall st ps p,
     try_order data p = None ->
     search_step data st p = st /\
     fold_left (search_step data) (p :: ps) st
     = fold_left (search_step data) ps st) /\
  List.length (AIC (grid_search data)) = List.length (AR_model (grid_search data)) /\
  (forall i entry,
     nth_error (AR_model (grid_search data)) i = Some entry ->
     exists p a, entry = [p] /\ (p < 25)%nat /\
                 try_order data p = Some a /\
                 nth_error (AIC (grid_search data)) i = Some a) /\
  (forall p, (p < 25)%nat ->
             (In [p] (AR_model (grid_search data)) <-> try_order data p <> None)).
Proof.
  split; [apply try_order_None|]. split.
  { intros st ps p E. unfold search_step at 1. cbn [fold_left].
    unfold search_step at 2. rewrite E. split; reflexivity. }
  rewrite grid_search_recorded. cbn [AIC AR_model]. split.
  { now rewrite !length_map. }
  split.
  - intros i entry Hi. rewrite nth_error_map in Hi.
    destruct (nth_error (recorded data (seq 0 25)) i) as [[p a]|] eqn:E;
      [|discriminate].
    injection Hi as <-. exists p, a. split; [reflexivity|].
    pose proof (nth_error_In _ _ E) as Hin.
    apply (proj1 (recorded_In data _ p a)) in Hin. destruct Hin as [Hp Ha].
    apply in_seq in Hp. split; [lia|]. split; [exact Ha|].
    rewrite nth_error_map, E. reflexivity.
  - intros p Hp. rewrite in_map_iff. split.
    + intros [[q a] [[= ->] Hin]].
      apply (proj1 (recorded_In data _ p a)) in Hin. destruct Hin as [_ Ha].
      congruence.
    + intros Hne. destruct (try_order data p) as [a|] eqn:E; [|now elim Hne].
      exists (p, a). split; [reflexivity|].
      apply (proj2 (recorded_In data _ p a)). split; [|exact E].
      apply in_seq. lia.
Qed.

(** C4.  When the search recorded at least one criterion, the report
    names an order among 0..24 that was fitted, whose criterion equals
    the least recorded criterion, and no smaller order that was fitted
    has a criterion equal to it. *)
Theorem C4_reported_order_is_least_with_minimum {SM : Statsmodels}
        (data : list cell) :
  AIC (grid_search data) <> [] ->
  exists m p,
    smallest_report (grid_search data) = Some (m, p) /\
    In m (AIC (grid_search data)) /\
    Forall (fun a => (m <= a)%Q) (AIC (grid_search data)) /\
    (p < 25)%nat /\
    (exists a, try_order data p = Some a /\ (a == m)%Q) /\
    (forall q b, (q < p)%nat -> try_order data q = Some b -> ~ (b == m)%Q).
Proof.
  rewrite grid_search_recorded. unfold smallest_report. cbn [AIC AR_model].
  set (R := recorded data (seq 0 25)). intros Hne.
  destruct (py_extreme Qltb (map snd R)) as [m|] eqn:Em.
  2:{ destruct (map snd R); [now elim Hne | discriminate]. }
  destruct (py_extreme_spec Qltb (fun a m => (m <= a)%Q) (fun _ => True)
              (fun x _ => Qle_refl x)
              (fun x y z H1 H2 => Qle_trans _ _ _ H2 H1)
              (fun x y _ _ E => Qlt_le_weak _ _ (Qltb_true _ _ E))
              (fun x y _ _ E => Qltb_false _ _ E)
              (map snd R) m) as [Hin Hmin]; [|exact Em|].
  { rewrite Forall_forall. trivial. }
  destruct (list_index_total m (map snd R) Hin) as [i Ei].
  destruct (list_index_first R m i (recorded_sorted data _ (seq_sorted 0 25)) Ei)
    as (p & a & Hn & Ha & Hfirst).
  exists m, p. cbn [bind ret Monad_option]. rewrite Ei.
  rewrite nth_error_map, Hn. cbn [option_map nth_error fst].
  split; [reflexivity|]. split; [exact Hin|]. split; [exact Hmin|].
  pose proof (nth_error_In _ _ Hn) as Hp.
  apply (proj1 (recorded_In data _ p a)) in Hp. destruct Hp as [Hp Ea].
  apply in_seq in Hp. split; [lia|]. split; [now exists a|].
  intros q b Hq Eb. apply (Hfirst q b); [|exact Hq].
  apply (proj2 (recorded_In data _ q b)). split; [|exact Eb].
  apply in_seq. lia.
Qed.

Lemma C4_witness :
  AIC (grid_search (SM := sm_with_failures) (values (differenced daily_sample))) <> [] /\
  exists m p,
    smallest_report (grid_search (SM := sm_with_failures)
                                 (values (differenced daily_sample)))
    = Some (m, p) /\ p = 2%nat.
Proof.
  assert (H : AIC (grid_search (SM := sm_with_failures)
                               (values (differenced daily_sample))) <> [])
    by (vm_compute; discriminate).
  split; [exact H|].
  destruct (C4_reported_order_is_least_with_minimum
              (SM := sm_with_failures) (values (differenced daily_sample)) H)
    as (m & p & E & _).
  exists m, p. split; [exact E|].
  vm_compute in E. injection E as _ <-. reflexivity.
Defined.

(** ** The models fitted after the search *)

(** The order of the models fitted after the searches is written in
    the cells: 0 on the monthly data and 2 on the weekly data, whatever
    the searches reported. *)
Lemma fitted_orders_are_literals {SM : Statsmodels}
      (diff_monthly diff_weekly : Series) (mm mw : AutoRegModel) :
  monthly_model diff_monthly = Some mm ->
  weekly_model diff_weekly = Some mw ->
  lags mm = 0%nat /\ endog mm = values diff_monthly /\
  lags mw = 2%nat /\ endog mw = values diff_weekly.
Proof.
  unfold monthly_model, weekly_model, AutoReg.
  destruct (AutoReg_accepts (values diff_monthly) 0); [|discriminate].
  destruct (AutoReg_accepts (values diff_weekly) 2); [|discriminate].
  intros [= <-] [= <-]. cbn [lags endog]. repeat split.
Qed.

(** C2, not met by the code.  With a library that fits every order and
    whose criterion is smallest at order 1, the search on the
    differenced sample reports order 1 with criterion 0, while the
    model fitted after the monthly search has order 0 and the one
    fitted after the weekly search has order 2: the fitted order is the
    literal of the cell and not the order reported.  For every library
    and all data the fitted orders are 0 and 2. *)
Theorem C2_fitted_order_ignores_report :
  smallest_report (grid_search (SM := sm_best_at_1)
                               (values (differenced daily_sample)))
  = Some (0%Q, 1%nat) /\
  option_map lags (monthly_model (SM := sm_best_at_1) (differenced daily_sample))
  = Some 0%nat /\
  option_map lags (weekly_model (SM := sm_best_at_1) (differenced daily_sample))
  = Some 2%nat /\
  (forall (SM : Statsmodels) (s : Series) (m : AutoRegModel),
     (monthly_model s = Some m -> lags m = 0%nat) /\
     (weekly_model s = Some m -> lags m = 2%nat)).
Proof.
  split; [reflexivity|]. split; [reflexivity|]. split; [reflexivity|].
  intros SM s m. unfold monthly_model, weekly_model, AutoReg.
  split.
  - destruct (AutoReg_accepts (values s) 0); [|discriminate]. now intros [= <-].
  - destruct (AutoReg_accepts (values s) 2); [|discriminate]. now intros [= <-].
Qed.

(** ** The unit-root cells *)

Lemma run_bind_log {A B : Type} (c : run A) (k : A -> run B) (log : list event) :
  runState (unOptionT (bind c k)) log
  = match runState (unOptionT c) log with
    | (Some a, log') => runState (unOptionT (k a)) log'
    | (None, log') => (None, log')
    end.
Proof.
  cbn. destruct (runState (unOptionT c) log) as [[a|] log']; reflexivity.
Qed.

(** One cell: the call, then the p-value when the call returns. *)
Lemma adfuller_print_run {SM : Statsmodels} (x : Series) (log : list event) :
  runState (unOptionT (adfuller_print x)) log
  = match adfuller x with
    | Some r => (Some tt, log ++ [Call_adfuller x; Print_value (pvalue r)])
    | None => (None, log ++ [Call_adfuller x])
    end.
Proof.
  unfold adfuller_print, pvalue.
  destruct (adfuller x) as [[[[[[adf p] usedlag] nobs] cvs] ic]|].
  - cbn. rewrite <- app_assoc. reflexivity.
  - reflexivity.
Qed.

Lemma adfuller_print_then {SM : Statsmodels} {B : Type} (x : Series)
      (k : run B) (log : list event) :
  runState (unOptionT (adfuller_print x ;; k)) log
  = match adfuller x with
    | Some r => runState (unOptionT k)
                  (log ++ [Call_adfuller x; Print_value (pvalue r)])
    | None => (None, log ++ [Call_adfuller x])
    end.
Proof.
  rewrite run_bind_log, adfuller_print_run. now destruct (adfuller x).
Qed.

(** The log of the six cells for every behaviour of the calls: the
    cells up to the first call that raises, that call included and
    nothing after it. *)
Lemma adf_tests_log_general {SM : Statsmodels} (daily weekly monthly : Series) :
  log_of (adf_tests daily weekly monthly)
  = adf_log [daily; weekly; monthly;
             differenced daily; differenced weekly; differenced monthly].
Proof.
  unfold log_of, adf_tests, differenced. cbn [adf_log].
  rewrite adfuller_print_then.
  destruct (adfuller daily); [|reflexivity].
  rewrite adfuller_print_then.
  destruct (adfuller weekly); [|reflexivity].
  rewrite adfuller_print_then.
  destruct (adfuller monthly); [|reflexivity].
  rewrite adfuller_print_then.
  destruct (adfuller (dropna (frame_sub (shift1 daily) daily))); [|reflexivity].
  rewrite adfuller_print_then.
  destruct (adfuller (dropna (frame_sub (shift1 weekly) weekly))); [|reflexivity].
  rewrite adfuller_print_run.
  destruct (adfuller (dropna (frame_sub (shift1 monthly) monthly))); reflexivity.
Qed.

(** C8, not met by the code.  With a unit-root test that raises on
    fewer than four observations, the cells run on the series of the
    sample table log two calls and one p-value: the call on the three
    weekly values raises, nothing is printed for it and the later
    cells are not run. *)
Lemma C8_counterexample :
  exists weekly monthly,
    DGS10_daily fred_sample = Some daily_sample /\
    DGS10_weekly fred_sample = Some weekly /\
    DGS10_monthly fred_sample = Some monthly /\
    log_of (adf_tests (SM := sm_with_failures) daily_sample weekly monthly)
    = [Call_adfuller daily_sample; Print_value (1 # 100)%Q; Call_adfuller weekly] /\
    List.length (filter is_adfuller_call
                   (log_of (adf_tests (SM := sm_with_failures)
                                      daily_sample weekly monthly)))
    <> 6%nat.
Proof.
  eexists. eexists. split; [reflexivity|]. split; [reflexivity|].
  split; [reflexivity|]. split; [reflexivity|]. vm_compute. discriminate.
Qed.

(** C8, amended.  When each of the six calls returns, the six
    unit-root cells call [adfuller] six times: on the daily, weekly and
    monthly series, then on the differenced daily, weekly and monthly
    series, missing value dropped; every call is followed by the
    printing of the second component of its result. *)
Theorem C8_adf_tests_log {SM : Statsmodels} (daily weekly monthly : Series) :
  Forall (fun x => adfuller x <> None)
         [daily; weekly; monthly;
          differenced daily; differenced weekly; differenced monthly] ->
  exists rs,
    Forall2 (fun x r => adfuller x = Some r)
            [daily; weekly; monthly;
             differenced daily; differenced weekly; differenced monthly] rs /\
    log_of (adf_tests daily weekly monthly)
    = flat_map (fun xr => [Call_adfuller (fst xr); Print_value (pvalue (snd xr))])
               (combine [daily; weekly; monthly;
                         differenced daily; differenced weekly; differenced monthly]
                        rs) /\
    List.length (filter is_adfuller_call (log_of (adf_tests daily weekly monthly)))
    = 6%nat /\
    List.length (filter is_print_value (log_of (adf_tests daily weekly monthly)))
    = 6%nat.
Proof.
  intros H. rewrite adf_tests_log_general.
  repeat match goal with
         | H : Forall _ (_ :: _) |- _ =>
             let Hx := fresh "Hx" in
             let H' := fresh "H" in
             inversion H as [|? ? Hx H']; subst; clear H
         end.
  cbn [adf_log].
  destruct (adfuller daily) as [r1|] eqn:E1; [|now elim Hx].
  destruct (adfuller weekly) as [r2|] eqn:E2; [|now elim Hx0].
  destruct (adfuller monthly) as [r3|] eqn:E3; [|now elim Hx1].
  destruct (adfuller (differenced daily)) as [r4|] eqn:E4; [|now elim Hx2].
  destruct (adfuller (differenced weekly)) as [r5|] eqn:E5; [|now elim Hx3].
  destruct (adfuller (differenced monthly)) as [r6|] eqn:E6; [|now elim Hx4].
  exists [r1; r2; r3; r4; r5; r6].
  split; [repeat constructor; assumption|].
  split; [reflexivity|]. split; reflexivity.
Qed.

Lemma C8_witness :
  Forall (fun x => adfuller (Statsmodels := sm_with_failures) x <> None)
         [daily_sample; daily_sample; daily_sample;
          differenced daily_sample; differenced daily_sample;
          differenced daily_sample] /\
  List.length (filter is_print_value
                 (log_of (adf_tests (SM := sm_with_failures)
                                    daily_sample daily_sample daily_sample)))
  = 6%nat.
Proof.
  assert (H : Forall (fun x => adfuller (Statsmodels := sm_with_failures) x <> None)
                [daily_sample; daily_sample; daily_sample;
                 differenced daily_sample; differenced daily_sample;
                 differenced daily_sample]).
  { repeat constructor; vm_compute; discriminate. }
  split; [exact H|].
  destruct (C8_adf_tests_log (SM := sm_with_failures)
              daily_sample daily_sample daily_sample H) as (rs & _ & _ & _ & Hp).
  exact Hp.
Defined.

(** ** The characteristic polynomial *)

(** C3, not met by the code.  The tuple handed to the root
    finder is (1, phi1, phi2) at the estimates phi1 = -0.1 and
    phi2 = 0.04, not the coefficients (1, -phi1, -phi2) of
    1 - phi1 z - phi2 z^2: the two polynomials differ, the one of the
    code has no real root while the characteristic polynomial changes
    sign between 6 and 7. *)
Theorem C3_polyroots_argument_signs :
  polyroots_argument = [1%Q; phi1_hat; phi2_hat] /\
  ~ Forall2 Qeq polyroots_argument (characteristic_polynomial phi1_hat phi2_hat) /\
  (forall z, 0 < polyval polyroots_argument z)%Q /\
  (0 < polyval (characteristic_polynomial phi1_hat phi2_hat) 6)%Q /\
  (polyval (characteristic_polynomial phi1_hat phi2_hat) 7 < 0)%Q.
Proof.
  split; [reflexivity|]. split.
  { intros H. inversion H as [|? ? ? ? _ H1]; subst.
    inversion H1 as [|? ? ? ? H2 _]; subst.
    vm_compute in H2. discriminate H2. }
  split.
  { intros z. unfold polyval, polyroots_argument. cbn [fold_right].
    assert (H : (0 <= (z - (5 # 4)) * (z - (5 # 4)))%Q).
    { destruct (Qlt_le_dec (z - (5 # 4)) 0).
      - setoid_replace ((z - (5 # 4)) * (z - (5 # 4)))%Q
          with ((- (z - (5 # 4))) * (- (z - (5 # 4))))%Q by ring.
        apply Qmult_le_0_compat; lra.
      - apply Qmult_le_0_compat; lra. }
    setoid_replace (1 + z * (- (1 # 10) + z * ((4 # 100) + z * 0)))%Q
      with ((4 # 100) * ((z - (5 # 4)) * (z - (5 # 4))) + (15 # 16))%Q by ring.
    lra. }
  split; vm_compute; reflexivity.
Qed.

(** * Further properties of the cells *)

(** ** Differencing with missing values *)

Lemma cell_sub_None_r (a : cell) : cell_sub a None = None.
Proof. now destruct a. Qed.

Lemma differenced_is_after (s : Series) :
  differenced s = differenced_after None s.
Proof. reflexivity. Qed.

Lemma differenced_after_cons (prev : cell) (i : Z) (x : cell) (s : Series) :
  differenced_after prev ((i, x) :: s)
  = (if isna_cell (cell_sub prev x) then [] else [(i, cell_sub prev x)])
      ++ differenced_after x s.
Proof.
  unfold differenced_after, dropna, frame_sub. cbn.
  now destruct (isna_cell (cell_sub prev x)).
Qed.

Lemma differenced_after_app (prev : cell) (s1 s2 : Series) (i : Z) :
  differenced_after prev (s1 ++ (i, None) :: s2)
  = differenced_after prev s1 ++ differenced_after None s2.
Proof.
  revert prev. induction s1 as [|[j x] s1 IH]; intros prev.
  - cbn [app]. rewrite differenced_after_cons, cell_sub_None_r. reflexivity.
  - cbn [app]. rewrite !differenced_after_cons, IH, app_assoc. reflexivity.
Qed.

Lemma differenced_after_length (prev : cell) (s : Series) :
  (List.length (differenced_after prev s) <= List.length s)%nat.
Proof.
  revert prev. induction s as [|[i x] s IH]; intros prev; [cbn; lia|].
  rewrite differenced_after_cons, length_app. specialize (IH x).
  destruct (isna_cell (cell_sub prev x)); cbn; lia.
Qed.

(** X1.  Whatever the series holds, its differenced series has no
    missing value and at least one row less (none for an empty
    series). *)
Theorem differenced_clean_and_shorter (s : Series) :
  no_nan (values (differenced s)) /\
  (List.length (differenced s) <= List.length s - 1)%nat.
Proof.
  split.
  - unfold no_nan, values, differenced, dropna. rewrite Forall_map, Forall_forall.
    intros r Hr. apply filter_In in Hr. destruct Hr as [_ Hr].
    destruct (snd r); [discriminate | discriminate Hr].
  - rewrite differenced_is_after. destruct s as [|[i x] s]; [cbn; lia|].
    rewrite differenced_after_cons. cbn [cell_sub isna_cell app List.length].
    pose proof (differenced_after_length x s). lia.
Qed.

(** X2.  A missing value splits the series: the differences are taken
    inside the stretch before it and inside the stretch after it, and
    no row spans the gap. *)
Theorem differenced_splits_at_missing (s1 s2 : Series) (i : Z) :
  differenced (s1 ++ (i, None) :: s2) = differenced s1 ++ differenced s2.
Proof. rewrite !differenced_is_after. apply differenced_after_app. Qed.

(** ** The table and its missing values *)

Lemma getitem_None {A : Type} (df : Frame A) (name : string) :
  getitem df name = None <-> ~ In name (map fst (columns df)).
Proof.
  unfold getitem.
  induction (columns df) as [|[n c] cols IH]; cbn.
  - split; [intros _ [] | reflexivity].
  - destruct (String.eqb_spec n name) as [->|Hne].
    + split; [discriminate | intros H; elim H; now left].
    + rewrite IH. split; [intros H [E|E]; [now elim Hne | now elim H] | tauto].
Qed.

(** X5.  Without a column called DGS10 the filter raises [KeyError] and
    none of the daily, weekly and monthly series is defined; with one,
    the filter always returns. *)
Theorem fred_data0_needs_DGS10 (fred_data : Frame cell) :
  (fred_data0 fred_data = None <->
   ~ In "DGS10"%string (map fst (columns fred_data))) /\
  (fred_data0 fred_data = None ->
   DGS10_daily fred_data = None /\ DGS10_weekly fred_data = None /\
   DGS10_monthly fred_data = None).
Proof.
  assert (E : fred_data0 fred_data = None <-> getitem fred_data "DGS10" = None).
  { unfold fred_data0. rewrite getitem_isna.
    destruct (getitem fred_data "DGS10"); cbn; split; intros H;
      try discriminate; reflexivity. }
  split.
  - rewrite E. apply getitem_None.
  - intros H.
    unfold DGS10_weekly, DGS10_monthly, OHLC_weekly, OHLC_monthly, DGS10_daily.
    rewrite H. cbn. repeat split; reflexivity.
Qed.

Lemma combine_select {A B : Type} (mask : list bool) (l : list A) (l' : list B) :
  combine (select mask l) (select mask l') = select mask (combine l l').
Proof.
  revert l l'. induction mask as [|b mask IH]; intros [|x l] [|y l'];
    cbn; try reflexivity.
  - now destruct b; destruct (select mask l).
  - destruct b; cbn; now rewrite IH.
Qed.

(** X6.  [DGS10_daily] is the DGS10 column of the table with its
    missing rows dropped: filtering the table and then taking the
    column gives what [dropna] gives on the column. *)
Theorem DGS10_daily_is_dropna (fred_data : Frame cell) :
  DGS10_daily fred_data
  = (s <- getitem_frame fred_data "DGS10" ;; ret (dropna s)).
Proof.
  unfold DGS10_daily, fred_data0, getitem_frame.
  rewrite getitem_isna.
  destruct (getitem fred_data "DGS10") as [c|] eqn:E; [|reflexivity].
  cbn [option_map bind ret Monad_option].
  rewrite getitem_getitem_mask, E. cbn [option_map getitem_mask index].
  f_equal. rewrite combine_select.
  generalize (index fred_data). clear E.
  induction c as [|x c IH]; intros [|i idx]; cbn; try reflexivity.
  rewrite IH. unfold dropna. now destruct x.
Qed.

Lemma select_all {A : Type} (mask : list bool) (l : list A) :
  Forall (fun b => b = true) mask -> (List.length l <= List.length mask)%nat ->
  select mask l = l.
Proof.
  intros H. revert l. induction H as [|b mask -> _ IH]; intros [|x l] Hl;
    cbn in *; try reflexivity; [lia|].
  rewrite IH; [reflexivity | lia].
Qed.

Lemma select_length {A B : Type} (mask : list bool) (l : list A) (l' : list B) :
  List.length l = List.length l' ->
  List.length (select mask l) = List.length (select mask l').
Proof.
  revert l l'. induction mask as [|b mask IH]; intros [|x l] [|y l'] H;
    cbn in *; try reflexivity; try discriminate.
  injection H as H. destruct b; cbn; rewrite (IH l l' H); reflexivity.
Qed.

Lemma rectangular_getitem_mask {A : Type} (df : Frame A) (mask : list bool) :
  rectangular df -> rectangular (getitem_mask df mask).
Proof.
  unfold rectangular, getitem_mask. cbn [index columns].
  rewrite Forall_map. apply Forall_impl. intros c Hc. cbn.
  now apply select_length.
Qed.

Lemma not_missing_mask_true (c : list cell) :
  no_nan c ->
  Forall (fun b => b = true) (map (fun b => Bool.eqb b false) (map isna_cell c)).
Proof.
  induction 1 as [|[x|] c Hx _ IH]; cbn; [constructor | | now elim Hx].
  constructor; [reflexivity | exact IH].
Qed.

(** X7.  On a table whose columns all have one value per row, the
    filter keeps that shape and filtering a second time changes
    nothing. *)
Theorem fred_data0_idempotent (fred_data df0 : Frame cell) :
  rectangular fred_data ->
  fred_data0 fred_data = Some df0 ->
  rectangular df0 /\ fred_data0 df0 = Some df0.
Proof.
  intros Hrect. unfold fred_data0 at 1. rewrite getitem_isna.
  destruct (getitem fred_data "DGS10") as [c|] eqn:E; [|discriminate].
  cbn [option_map bind ret Monad_option]. intros [= <-].
  set (mask := map (fun b => Bool.eqb b false) (map isna_cell c)).
  pose proof (rectangular_getitem_mask fred_data mask Hrect) as Hrect0.
  split; [exact Hrect0|].
  unfold fred_data0. rewrite getitem_isna, getitem_getitem_mask, E.
  cbn [option_map bind ret Monad_option]. f_equal.
  pose proof (not_missing_mask_true _ (select_not_missing c)) as Htrue.
  fold mask in Htrue.
  set (mask' := map (fun b => Bool.eqb b false) (map isna_cell (select mask c))) in *.
  assert (Hlen : List.length c = List.length (index fred_data)).
  { unfold getitem in E.
    destruct (find (fun c0 => String.eqb (fst c0) "DGS10") (columns fred_data))
      as [[n c']|] eqn:F; [|discriminate].
    injection E as <-. apply find_some in F. destruct F as [F _].
    unfold rectangular in Hrect. rewrite Forall_forall in Hrect.
    apply (Hrect _ F). }
  assert (Hm : List.length mask' = List.length (select mask (index fred_data))).
  { unfold mask'. rewrite !length_map. now apply select_length. }
  unfold getitem_mask at 1. cbn [index columns].
  destruct fred_data as [idx cols]. unfold getitem_mask. cbn [index columns] in *.
  f_equal.
  - apply select_all; [exact Htrue | lia].
  - rewrite map_map. cbn [fst snd].
    apply map_ext_Forall. unfold rectangular in Hrect. cbn [index columns] in Hrect.
    revert Hrect. apply Forall_impl. intros [n col] Hc. cbn [fst snd] in *.
    f_equal. apply select_all; [exact Htrue|].
    rewrite Hm. rewrite (select_length mask col idx Hc). lia.
Qed.

Lemma count_of_isna_sum (df : Frame cell) (name : string) :
  count_of name (isna_sum df)
  = option_map (fun c => List.length (filter (fun b : bool => b) (map isna_cell c)))
               (getitem df name).
Proof.
  unfold count_of, isna_sum, frame_sum, isna, getitem. cbn [columns].
  induction (columns df) as [|[n c] cols IH]; cbn; [reflexivity|].
  destruct (String.eqb n name); [reflexivity | exact IH].
Qed.

Lemma select_missing_length {A : Type} (c : list cell) (l : list A) :
  List.length c = List.length l ->
  List.length (select (map (fun b => Bool.eqb b true) (map isna_cell c)) l)
  = List.length (filter (fun b : bool => b) (map isna_cell c)).
Proof.
  revert l. induction c as [|x c IH]; intros [|y l] H; try discriminate;
    [reflexivity|].
  injection H as H. cbn. destruct x; cbn; now rewrite IH.
Qed.

Lemma select_partition {A : Type} (c : list cell) (l : list A) :
  List.length c = List.length l ->
  Permutation (select (map (fun b => Bool.eqb b true) (map isna_cell c)) l
               ++ select (map (fun b => Bool.eqb b false) (map isna_cell c)) l)
              l.
Proof.
  revert l. induction c as [|x c IH]; intros [|y l] H; try discriminate;
    [constructor|].
  injection H as H. cbn. destruct x; cbn.
  - apply Permutation_sym, Permutation_cons_app, Permutation_sym, IH, H.
  - constructor. now apply IH.
Qed.

Lemma rectangular_getitem {A : Type} (df : Frame A) (name : string) (c : list A) :
  rectangular df -> getitem df name = Some c ->
  List.length c = List.length (index df).
Proof.
  unfold rectangular, getitem. intros Hrect E.
  destruct (find (fun c0 => String.eqb (fst c0) name) (columns df))
    as [[n c']|] eqn:F; [|discriminate].
  injection E as <-. apply find_some in F. destruct F as [F _].
  rewrite Forall_forall in Hrect. apply (Hrect _ F).
Qed.

(** X8.  On a table whose columns all have one value per row, the dates
    listed as missing for DGS10 and the dates kept by the filter share
    out the dates of the table: each date of the table is in exactly
    one of the two lists, as often as in the table. *)
Theorem missing_and_kept_dates_partition (fred_data df0 : Frame cell) :
  rectangular fred_data ->
  fred_data0 fred_data = Some df0 ->
  exists missing,
    missing_DGS10_index fred_data = Some missing /\
    Permutation (missing ++ index df0) (index fred_data).
Proof.
  intros Hrect. unfold fred_data0, missing_DGS10_index. rewrite getitem_isna.
  destruct (getitem fred_data "DGS10") as [c|] eqn:E; [|discriminate].
  cbn [option_map bind ret Monad_option]. intros [= <-].
  eexists. split; [reflexivity|].
  unfold getitem_mask. cbn [index].
  apply select_partition. now apply (rectangular_getitem fred_data "DGS10").
Qed.

(** X9.  On such a table, the count of missing DGS10 values that
    [isna().sum()] shows is the number of dates listed as missing; after
    the filter that count is 0, and the filtered table, like
    [DGS10_daily], has as many rows as the table less that count. *)
Theorem missing_count_and_lengths (fred_data df0 : Frame cell) :
  rectangular fred_data ->
  fred_data0 fred_data = Some df0 ->
  exists n missing daily,
    count_of "DGS10" (isna_sum fred_data) = Some n /\
    missing_DGS10_index fred_data = Some missing /\
    List.length missing = n /\
    count_of "DGS10" (isna_sum df0) = Some 0%nat /\
    (len df0 + n = len fred_data)%nat /\
    DGS10_daily fred_data = Some daily /\
    List.length daily = len df0.
Proof.
  intros Hrect.
  unfold DGS10_daily, fred_data0, missing_DGS10_index, getitem_frame.
  rewrite !count_of_isna_sum, getitem_isna.
  destruct (getitem fred_data "DGS10") as [c|] eqn:E; [|discriminate].
  cbn [option_map bind ret Monad_option]. intros [= <-].
  pose proof (rectangular_getitem fred_data "DGS10" c Hrect E) as Hlen.
  pose proof (select_partition c (index fred_data) Hlen) as Hperm.
  rewrite getitem_getitem_mask, E. cbn [option_map].
  set (mask := map (fun b => Bool.eqb b false) (map isna_cell c)) in *.
  do 3 eexists. split; [reflexivity|]. split; [reflexivity|].
  split; [unfold getitem_mask; cbn [index]; now apply select_missing_length|].
  split.
  { f_equal. pose proof (select_not_missing c) as Hn. fold mask in Hn.
    induction Hn as [|[x|] l Hx _ IH]; cbn; [reflexivity | exact IH | now elim Hx]. }
  split.
  { apply Permutation_length in Hperm. rewrite length_app in Hperm.
    rewrite (select_missing_length c (index fred_data) Hlen) in Hperm.
    unfold len, getitem_mask. cbn [index]. fold mask in Hperm. lia. }
  split; [reflexivity|].
  unfold len, getitem_mask. cbn [index].
  rewrite length_combine, (select_length mask c (index fred_data) Hlen). lia.
Qed.

(** ** The frame of bars *)

Lemma resample_plot_columns (data : Series) (how : rule) (df : Frame cell) :
  resample_plot data how = Some df ->
  exists o h l c,
    apply_groups getitem_0 (resample how data) = Some o /\
    apply_groups py_max (resample how data) = Some h /\
    apply_groups py_min (resample how data) = Some l /\
    apply_groups getitem_m1 (resample how data) = Some c /\
    index df = map fst (resample how data) /\
    columns df = [("open"%string, map snd o); ("high"%string, map snd h);
                  ("low"%string, map snd l); ("close"%string, map snd c)].
Proof.
  unfold resample_plot, ohlc. cbn [fold_left fst snd].
  pose proof (resample_index_NoDup how data) as Hnd.
  set (G := resample how data) in *.
  cbn [bind ret Monad_option].
  destruct (apply_groups getitem_0 G) as [o|] eqn:Eo; [|discriminate].
  destruct (apply_groups py_max G) as [h|] eqn:Eh; [|discriminate].
  destruct (apply_groups py_min G) as [l|] eqn:El; [|discriminate].
  destruct (apply_groups getitem_m1 G) as [c|] eqn:Ec; [|discriminate].
  intros [= <-]. exists o, h, l, c.
  pose proof (apply_groups_index _ _ _ Eo) as Io.
  pose proof (apply_groups_index _ _ _ Eh) as Ih.
  pose proof (apply_groups_index _ _ _ El) as Il.
  pose proof (apply_groups_index _ _ _ Ec) as Ic.
  do 4 (split; [reflexivity|]).
  destruct o as [|[p v] o].
  - destruct G as [|? ?]; [|discriminate Io].
    destruct h; [|discriminate Ih]. destruct l; [|discriminate Il].
    destruct c; [|discriminate Ic].
    cbn. split; reflexivity.
  - remember (setitem (empty_frame ["open"; "high"; "low"; "close"]%string)
                      "open" ((p, v) :: o)) as df1 eqn:Edf1.
    assert (H1 : index df1 = map fst G) by (rewrite <- Io, Edf1; reflexivity).
    assert (Hne : map fst G <> []) by (rewrite <- Io; discriminate).
    rewrite (setitem_aligned df1 "high" h);
      [|rewrite H1; assumption | congruence | rewrite H1; assumption].
    rewrite (setitem_aligned _ "low" l); cbn [index];
      [|rewrite H1; assumption | congruence | rewrite H1; assumption].
    rewrite (setitem_aligned _ "close" c); cbn [index];
      [|rewrite H1; assumption | congruence | rewrite H1; assumption].
    split; [exact H1|].
    rewrite Edf1. reflexivity.
Qed.

(** X10.  A frame returned by [resample_plot] has the four columns
    open, high, low, close in that order and one value in each of them
    for every sub-period of its index. *)
Theorem resample_plot_frame_shape (data : Series) (how : rule) (df : Frame cell) :
  resample_plot data how = Some df ->
  map fst (columns df) = ["open"; "high"; "low"; "close"]%string /\
  rectangular df /\
  len df = List.length (resample how data).
Proof.
  intros Hdf.
  destruct (resample_plot_columns data how df Hdf)
    as (o & h & l & c & Eo & Eh & El & Ec & Hidx & Hcols).
  apply apply_groups_index in Eo, Eh, El, Ec.
  apply (f_equal (@List.length Z)) in Eo, Eh, El, Ec.
  rewrite !length_map in Eo, Eh, El, Ec.
  unfold rectangular, len. rewrite Hcols, Hidx. cbn [map fst].
  split; [reflexivity|]. split; [|now rewrite length_map].
  repeat constructor; cbn [snd]; rewrite !length_map; assumption.
Qed.

Lemma resample_plot_frame_shape_witness :
  exists df, resample_plot daily_sample W = Some df /\ len df = 3%nat.
Proof.
  eexists. split; [reflexivity|].
  apply (proj2 (proj2 (resample_plot_frame_shape daily_sample W _ eq_refl))).
Defined.

(** X11.  [resample_plot] raises exactly when some sub-period between
    the first and the last date holds no observation. *)
Theorem resample_plot_fails_on_empty_period (data : Series) (how : rule) :
  resample_plot data how = None <->
  Exists (fun pg => snd pg = []) (resample how data).
Proof.
  split.
  - intros Hnone.
    destruct (Forall_Exists_dec (fun pg : Z * list cell => snd pg <> [])
                (fun pg => match snd pg as g return {g <> []} + {~ g <> []} with
                           | [] => right (fun H => H eq_refl)
                           | x :: g => left (fun H => nil_cons (eq_sym H))
                           end)
                (resample how data)) as [Hall|Hex].
    + destruct (resample_plot_total data how Hall) as [df Hdf]. congruence.
    + revert Hex. apply Exists_impl. intros [p g] H. cbn in *.
      destruct g; [reflexivity|]. elim H. discriminate.
  - intros Hex. destruct (resample_plot data how) as [df|] eqn:Hdf; [|reflexivity].
    exfalso. apply Exists_exists in Hex. destruct Hex as [[p g] [Hin Hg]].
    cbn in Hg. subst g. apply In_nth_error in Hin. destruct Hin as [i Hi].
    destruct (resample_plot_columns data how df Hdf) as (o & _ & _ & _ & Eo & _).
    destruct (apply_groups_row _ _ _ i p [] Eo Hi) as [v [_ Hv]].
    discriminate Hv.
Qed.

(** X12.  A sub-period with a single observation gives a flat bar:
    open, high, low and close are that observation. *)
Theorem single_observation_bar (data : Series) (how : rule) (df : Frame cell)
        (i : nat) (p : Z) (v : cell) :
  resample_plot data how = Some df ->
  nth_error (resample how data) i = Some (p, [v]) ->
  bar_at df i = Some (mkBar v v v v).
Proof.
  intros Hdf Hi.
  destruct (resample_plot_spec data how df Hdf)
    as (o & h & l & c & Eo & Eh & El & Ec & _ & Go & Gh & Gl & Gc).
  destruct (apply_groups_row _ _ _ i p [v] Eo Hi) as [vo [No Ao]].
  destruct (apply_groups_row _ _ _ i p [v] Eh Hi) as [vh [Nh Ah]].
  destruct (apply_groups_row _ _ _ i p [v] El Hi) as [vl [Nl Al]].
  destruct (apply_groups_row _ _ _ i p [v] Ec Hi) as [vc [Nc Ac]].
  cbn in Ao, Ah, Al, Ac.
  injection Ao as <-. injection Ah as <-. injection Al as <-. injection Ac as <-.
  unfold bar_at. rewrite Go, Gh, Gl, Gc. cbn [bind ret Monad_option].
  rewrite No, Nh, Nl, Nc. reflexivity.
Qed.

Lemma single_observation_bar_witness :
  exists df, resample_plot daily_sample W = Some df /\
             bar_at df 0 = Some (mkBar (Some (786 # 100)%Q) (Some (786 # 100)%Q)
                                       (Some (786 # 100)%Q) (Some (786 # 100)%Q)).
Proof.
  eexists. split; [reflexivity|].
  apply (single_observation_bar daily_sample W _ 0%nat 0 (Some (786 # 100)%Q) eq_refl).
  reflexivity.
Defined.

(** ** The dimensions of the resampled series *)

Lemma resample_plot_groups_nonempty (data : Series) (how : rule) (df : Frame cell) :
  resample_plot data how = Some df ->
  Forall (fun pg => snd pg <> []) (resample how data).
Proof.
  intros Hdf. destruct (resample_plot_columns data how df Hdf) as (o & _ & _ & _ & Eo & _).
  apply apply_groups_spec in Eo.
  induction Eo as [|[p g] pv G o [_ Hg] _ IH]; constructor; [|exact IH].
  cbn in *. destruct g; [discriminate Hg | discriminate].
Qed.

Lemma filter_filter_absorb {A : Type} (f g : A -> bool) (l : list A) :
  (forall x, f x = true -> g x = true) ->
  filter f (filter g l) = filter f l.
Proof.
  intros H. induction l as [|x l IH]; cbn; [reflexivity|].
  destruct (g x) eqn:Eg; cbn; rewrite IH; [reflexivity|].
  destruct (f x) eqn:Ef; [|reflexivity].
  rewrite (H x Ef) in Eg. discriminate.
Qed.

Lemma filter_split_length {A : Type} (f : A -> bool) (l : list A) :
  (List.length (filter f l) + List.length (filter (fun x => negb (f x)) l))%nat
  = List.length l.
Proof.
  induction l as [|x l IH]; cbn; [reflexivity|].
  destruct (f x); cbn; lia.
Qed.

(** Groups under distinct keys never hold more rows than the list. *)
Lemma groups_total_length {A : Type} (key : A -> Z) (ps : list Z) (l : list A) :
  NoDup ps ->
  (list_sum (map (fun p => List.length (filter (fun x => (key x =? p)%Z) l)) ps)
   <= List.length l)%nat.
Proof.
  intros Hnd. revert l. induction Hnd as [|p ps Hnotin _ IH]; intros l; cbn; [lia|].
  rewrite <- (filter_split_length (fun x => key x =? p) l).
  apply Nat.add_le_mono_l.
  specialize (IH (filter (fun x => negb (key x =? p)) l)).
  etransitivity; [|exact IH].
  apply Nat.eq_le_incl. unfold list_sum. f_equal. apply map_ext_in. intros q Hq.
  f_equal. symmetry. apply filter_filter_absorb.
  intros x Hx. apply Z.eqb_eq in Hx.
  destruct (Z.eqb_spec (key x) p) as [E|_]; [|reflexivity].
  elim Hnotin. congruence.
Qed.

Lemma nonempty_groups_count {A : Type} (gs : list (list A)) :
  Forall (fun g => g <> []) gs ->
  (List.length gs <= list_sum (map (@List.length A) gs))%nat.
Proof.
  unfold list_sum. induction 1 as [|g gs Hg _ IH]; cbn; [lia|].
  destruct g; [now elim Hg | cbn; lia].
Qed.

(** X13.  Resampling never adds rows: the frame of bars, and with it
    the weekly or monthly series, has at most as many rows as the data
    it was resampled from. *)
Theorem bars_no_more_than_observations (data : Series) (how : rule)
        (df : Frame cell) :
  resample_plot data how = Some df ->
  (len df <= List.length data)%nat.
Proof.
  intros Hdf.
  pose proof (resample_plot_groups_nonempty data how df Hdf) as Hne.
  destruct (resample_plot_columns data how df Hdf) as (_ & _ & _ & _ & _ & _ & _ & _ & Hidx & _).
  unfold len. rewrite Hidx, length_map.
  rewrite <- (length_map snd (resample how data)).
  etransitivity; [apply nonempty_groups_count; rewrite Forall_map; exact Hne|].
  unfold resample. destruct (map fst data) as [|d ds]; [cbn; lia|].
  rewrite !map_map. cbn [snd].
  etransitivity;
    [|apply (groups_total_length (fun r : Z * cell => period_of how (fst r))
               (zrange (period_of how (fold_left Z.min ds d))
                       (period_of how (fold_left Z.max ds d)))
               data (zrange_NoDup _ _))].
  apply Nat.eq_le_incl. f_equal. apply map_ext. intros p. apply length_map.
Qed.

Lemma bars_no_more_than_observations_witness :
  exists df, resample_plot daily_sample M = Some df /\
             (len df <= List.length daily_sample)%nat.
Proof.
  eexists. split; [reflexivity|].
  apply (bars_no_more_than_observations daily_sample M _ eq_refl).
Defined.

Lemma combine_fst_snd {A B : Type} (l : list (A * B)) :
  combine (map fst l) (map snd l) = l.
Proof. induction l as [|[a b] l IH]; cbn; [reflexivity | now rewrite IH]. Qed.

Lemma differenced_no_nan_shape (s : Series) :
  no_nan (values s) ->
  List.length (differenced s) = (List.length s - 1)%nat /\
  map fst (differenced s) = tl (map fst s).
Proof.
  intros Hn.
  assert (Hs : Forall (fun r => snd r <> None) s).
  { unfold no_nan, values in Hn. now rewrite Forall_map in Hn. }
  destruct (no_nan_series_of s Hs) as [l ->].
  assert (Hidx : map fst (differenced (series_of l)) = tl (map fst (series_of l))).
  { rewrite differenced_series_of, !series_of_index.
    destruct l as [|[i0 x0] l]; [reflexivity|].
    cbn. apply lagged_minus_current_from_index. }
  split; [|exact Hidx].
  rewrite <- (length_map fst (differenced _)), Hidx.
  rewrite <- (length_map fst (series_of l)).
  destruct (map fst (series_of l)); cbn; lia.
Qed.

(** The close column of the bars of a series without missing values
    has none either, and carries the index of the frame. *)
Lemma close_series_no_nan (daily : Series) (how : rule) (df : Frame cell)
      (s : Series) :
  no_nan (values daily) ->
  resample_plot daily how = Some df ->
  getitem_frame df "close" = Some s ->
  no_nan (values s) /\ map fst s = index df.
Proof.
  intros Hn Hdf Hs.
  destruct (resample_plot_spec daily how df Hdf)
    as (o & h & l & c & _ & _ & _ & Ec & Hidx & _ & _ & _ & Gc).
  unfold getitem_frame in Hs. rewrite Gc in Hs. cbn in Hs. injection Hs as <-.
  pose proof (apply_groups_index _ _ _ Ec) as Ic.
  rewrite Hidx, <- Ic, combine_fst_snd. split; [|reflexivity].
  unfold no_nan, values in *. rewrite Forall_map in *.
  apply apply_groups_spec in Ec.
  assert (Hin : forall p g, In (p, g) (resample how daily) -> incl g (map snd daily))
    by (intros p g; apply resample_group_incl).
  clear Ic Gc Hidx Hdf.
  induction Ec as [|[p g] [q v] G c' [_ Hv] _ IH]; constructor.
  - cbn in *. apply getitem_m1_spec in Hv. destruct Hv as [g' ->].
    rewrite Forall_forall in Hn.
    assert (Hv : In v (map snd daily)).
    { apply (Hin p (g' ++ [v])); [now left|]. apply in_or_app. right. now left. }
    apply in_map_iff in Hv. destruct Hv as [r [<- Hr]]. now apply Hn.
  - apply IH. intros p' g' H. apply (Hin p' g'). now right.
Qed.

(** X14.  From the table to the differenced weekly and monthly series:
    the weekly and the monthly series hold no missing value, so their
    differenced series lose exactly the first row and keep the rest of
    the index. *)
Theorem differenced_resampled_series (fred_data : Frame cell) (s : Series) :
  DGS10_weekly fred_data = Some s \/ DGS10_monthly fred_data = Some s ->
  no_nan (values s) /\
  List.length (differenced s) = (List.length s - 1)%nat /\
  map fst (differenced s) = tl (map fst s) /\
  (DGS10_weekly fred_data = Some s ->
   diff_DGS10_weekly fred_data = Some (differenced s)) /\
  (DGS10_monthly fred_data = Some s ->
   diff_DGS10_monthly fred_data = Some (differenced s)).
Proof.
  intros H.
  assert (Hn : no_nan (values s)).
  { destruct H as [H|H]; revert H;
      unfold DGS10_weekly, DGS10_monthly, OHLC_weekly, OHLC_monthly;
      destruct (DGS10_daily fred_data) as [daily|] eqn:Ed; try discriminate;
      cbn [bind ret Monad_option].
    - destruct (resample_plot daily W) as [df|] eqn:Edf; [|discriminate].
      intros Hs.
      apply (close_series_no_nan daily W df s (DGS10_daily_no_nan _ _ Ed) Edf Hs).
    - destruct (resample_plot daily M) as [df|] eqn:Edf; [|discriminate].
      intros Hs.
      apply (close_series_no_nan daily M df s (DGS10_daily_no_nan _ _ Ed) Edf Hs). }
  destruct (differenced_no_nan_shape s Hn) as [Hlen Hidx].
  split; [exact Hn|]. split; [exact Hlen|]. split; [exact Hidx|].
  split; intros E.
  - unfold diff_DGS10_weekly. rewrite E. reflexivity.
  - unfold diff_DGS10_monthly. rewrite E. reflexivity.
Qed.

Lemma differenced_resampled_series_witness :
  exists s, DGS10_weekly fred_sample = Some s /\
            List.length (differenced s) = 2%nat.
Proof.
  eexists. split; [reflexivity|].
  apply (proj1 (proj2 (differenced_resampled_series fred_sample _
                         (or_introl eq_refl)))).
Defined.

(** ** The lists of the model search *)

Section SearchLists.

Context {SM : Statsmodels}.
Variable data : list cell.

Lemma recorded_nil (ps : list nat) :
  (forall p, In p ps -> try_order data p = None) -> recorded data ps = [].
Proof.
  induction ps as [|p ps IH]; intros H; [reflexivity|].
  unfold recorded. cbn [flat_map]. rewrite (H p (or_introl eq_refl)).
  apply IH. intros q Hq. apply H. now right.
Qed.

Lemma recorded_length (ps : list nat) :
  (List.length (recorded data ps) <= List.length ps)%nat.
Proof.
  induction ps as [|p ps IH]; [cbn; lia|].
  unfold recorded in *. cbn [flat_map]. rewrite length_app.
  destruct (try_order data p); cbn [List.length]; lia.
Qed.

Lemma smallest_report_recorded (R : list (nat * Q)) :
  R <> [] -> StronglySorted lt (map fst R) ->
  exists m p,
    smallest_report (mkSearch (map snd R) (map (fun pa => [fst pa]) R)
                              (map (fun pa => Print_progress (fst pa) (snd pa)) R))
    = Some (m, p).
Proof.
  intros Hne Hs. unfold smallest_report. cbn [AIC AR_model].
  destruct (py_extreme Qltb (map snd R)) as [m|] eqn:Em.
  2:{ destruct R; [now elim Hne | discriminate]. }
  destruct (py_extreme_spec Qltb (fun a m => (m <= a)%Q) (fun _ => True)
              (fun x _ => Qle_refl x)
              (fun x y z H1 H2 => Qle_trans _ _ _ H2 H1)
              (fun x y _ _ E => Qlt_le_weak _ _ (Qltb_true _ _ E))
              (fun x y _ _ E => Qltb_false _ _ E)
              (map snd R) m) as [Hin _]; [|exact Em|].
  { rewrite Forall_forall. trivial. }
  destruct (list_index_total m (map snd R) Hin) as [i Ei].
  destruct (list_index_first R m i Hs Ei) as (p & a & Hn & _).
  exists m, p. cbn [bind ret Monad_option]. rewrite Ei.
  rewrite nth_error_map, Hn. reflexivity.
Qed.

End SearchLists.

(** X15.  The report cell raises exactly when none of the orders 0..24
    could be built and fitted; as soon as one was, it prints. *)
Theorem report_fails_iff_nothing_fitted {SM : Statsmodels} (data : list cell) :
  smallest_report (grid_search data) = None <->
  (forall p, (p < 25)%nat -> try_order data p = None).
Proof.
  rewrite grid_search_recorded. split.
  - intros Hnone p Hp. destruct (try_order data p) as [a|] eqn:E; [|reflexivity].
    exfalso.
    assert (Hin : In (p, a) (recorded data (seq 0 25))).
    { apply (proj2 (recorded_In data _ p a)). split; [apply in_seq; lia | exact E]. }
    destruct (smallest_report_recorded (recorded data (seq 0 25))) as (m & q & H).
    + intros E0. rewrite E0 in Hin. destruct Hin.
    + apply recorded_sorted, seq_sorted.
    + congruence.
  - intros Hall. rewrite recorded_nil; [reflexivity|].
    intros p Hp. apply in_seq in Hp. apply Hall. lia.
Qed.

(** X16.  After the loop, [AR_model] lists one-element entries whose
    orders increase strictly and stay below 25, so no order is listed
    twice and there are at most 25 entries; one progress line was
    printed for each entry, showing its order and its criterion. *)
Theorem search_lists_shape {SM : Statsmodels} (data : list cell) :
  exists ps,
    AR_model (grid_search data) = map (fun p => [p]) ps /\
    StronglySorted lt ps /\
    Forall (fun p => (p < 25)%nat) ps /\
    (List.length ps <= 25)%nat /\
    stdout (grid_search data)
    = map (fun pa => Print_progress (fst pa) (snd pa))
          (combine ps (AIC (grid_search data))).
Proof.
  rewrite grid_search_recorded. cbn [AIC AR_model stdout].
  exists (map fst (recorded data (seq 0 25))).
  split; [now rewrite map_map|].
  split; [apply recorded_sorted, seq_sorted|].
  split.
  { rewrite Forall_map, Forall_forall. intros [p a] Hin.
    apply (proj1 (recorded_In data _ p a)) in Hin. destruct Hin as [Hp _].
    apply in_seq in Hp. cbn. lia. }
  split.
  { rewrite length_map. pose proof (recorded_length data (seq 0 25)) as H.
    rewrite length_seq in H. exact H. }
  now rewrite combine_fst_snd.
Qed.

(** ** How the observations are shared out between the sub-periods *)

(** X17.  For data in chronological order, the number of bars is the
    number of sub-periods from that of the first date to that of the
    last date, both included. *)
Theorem number_of_bars (data : Series) (how : rule) (df : Frame cell) (d0 : Z) :
  Sorted Z.le (map fst data) ->
  hd_error (map fst data) = Some d0 ->
  resample_plot data how = Some df ->
  len df = Z.to_nat (period_of how (last (map fst data) d0) - period_of how d0 + 1).
Proof.
  intros Hs H0 Hdf.
  destruct (resample_plot_columns data how df Hdf)
    as (_ & _ & _ & _ & _ & _ & _ & _ & Hidx & _).
  unfold len. rewrite Hidx, length_map. unfold resample.
  apply Sorted_le_strongly in Hs.
  destruct (map fst data) as [|d ds]; [discriminate H0|].
  cbn in H0. injection H0 as ->.
  rewrite length_map, zrange_length.
  inversion Hs as [|? ? _ Hall]; subst.
  rewrite (fold_min_head d0 ds Hall), (fold_max_last d0 ds Hs), last_cons.
  reflexivity.
Qed.

Lemma number_of_bars_witness :
  Sorted Z.le (map fst daily_sample) /\
  exists df, resample_plot daily_sample W = Some df /\ len df = 3%nat.
Proof.
  assert (H : Sorted Z.le (map fst daily_sample)).
  { cbn. repeat (constructor; try (intros E; discriminate E)). }
  split; [exact H|]. eexists. split; [reflexivity|].
  apply (number_of_bars daily_sample W _ 1 H eq_refl eq_refl).
Defined.

Lemma filter_all {A : Type} (f : A -> bool) (l : list A) :
  Forall (fun x => f x = true) l -> filter f l = l.
Proof. induction 1 as [|x l Hx _ IH]; cbn; [reflexivity|]. now rewrite Hx, IH. Qed.

Lemma filter_none {A : Type} (f : A -> bool) (l : list A) :
  Forall (fun x => f x = false) l -> filter f l = [].
Proof. induction 1 as [|x l Hx _ IH]; cbn; [reflexivity|]. now rewrite Hx. Qed.

Lemma sorted_keys_split {A : Type} (key : A -> Z) (lo : Z) (l : list A) :
  StronglySorted Z.le (map key l) ->
  Forall (fun x => lo <= key x) l ->
  exists l1 l2, l = l1 ++ l2 /\
                Forall (fun x => key x = lo) l1 /\
                Forall (fun x => lo < key x) l2 /\
                StronglySorted Z.le (map key l2).
Proof.
  induction l as [|x l IH]; intros Hs Hlo.
  - exists [], []. repeat split; constructor.
  - cbn in Hs. inversion Hs as [|? ? Hs' Hall]; subst.
    inversion Hlo as [|? ? Hx Hlo']; subst.
    destruct (Z.eq_dec (key x) lo) as [E|Hne].
    + destruct (IH Hs' Hlo') as (l1 & l2 & -> & H1 & H2 & H3).
      exists (x :: l1), l2. repeat split; try assumption. now constructor.
    + exists [], (x :: l). repeat split; [constructor | | exact Hs].
      constructor; [lia|]. rewrite Forall_map in Hall.
      revert Hall. apply Forall_impl. intros y Hy. lia.
Qed.

(** Sorted keys within a range of integers: the groups of the
    successive keys, put end to end, are the list. *)
Lemma groups_concat {A : Type} (key : A -> Z) (n : nat) (lo : Z) (l : list A) :
  StronglySorted Z.le (map key l) ->
  Forall (fun x => lo <= key x < lo + Z.of_nat n) l ->
  List.concat (map (fun p => filter (fun x => key x =? p) l)
              (map (fun k => lo + Z.of_nat k) (seq 0 n))) = l.
Proof.
  revert lo l. induction n as [|n IH]; intros lo l Hs Hb.
  - destruct l as [|x l]; [reflexivity|]. inversion Hb; subst. lia.
  - destruct (sorted_keys_split key lo l Hs) as (l1 & l2 & -> & H1 & H2 & H3).
    { revert Hb. apply Forall_impl. intros x Hx. lia. }
    cbn [seq map List.concat]. rewrite <- seq_shift, map_map.
    rewrite Z.add_0_r, filter_app, (filter_all _ l1), (filter_none _ l2), app_nil_r.
    2:{ revert H2. apply Forall_impl. intros x Hx. apply Z.eqb_neq. lia. }
    2:{ revert H1. apply Forall_impl. intros x Hx. now apply Z.eqb_eq. }
    f_equal.
    transitivity (List.concat (map (fun p => filter (fun x => key x =? p) l2)
                                   (map (fun k => lo + 1 + Z.of_nat k) (seq 0 n)))).
    + f_equal. rewrite !map_map. apply map_ext. intros k.
      replace (lo + Z.of_nat (S k)) with (lo + 1 + Z.of_nat k) by lia.
      rewrite filter_app, (filter_none _ l1), app_nil_l; [reflexivity|].
      revert H1. apply Forall_impl. intros x Hx. apply Z.eqb_neq. lia.
    + apply (IH (lo + 1) l2 H3).
      apply Forall_app in Hb. destruct Hb as [_ Hb].
      rewrite Forall_forall in *. intros x Hx.
      specialize (Hb x Hx). specialize (H2 x Hx). lia.
Qed.

Lemma StronglySorted_map_mono (f : Z -> Z) (l : list Z) :
  (forall a b, a <= b -> f a <= f b) ->
  StronglySorted Z.le l -> StronglySorted Z.le (map f l).
Proof.
  intros Hf. induction 1 as [|x l _ IH Hall]; cbn; constructor; [exact IH|].
  rewrite Forall_map. revert Hall. apply Forall_impl. intros y. apply Hf.
Qed.

(** With a rule whose sub-period number grows with the date, the groups
    of [resample], put end to end, are the values of the data. *)
Lemma resample_shares_out (how : rule) (data : Series) :
  (forall a b, a <= b -> period_of how a <= period_of how b) ->
  Sorted Z.le (map fst data) ->
  List.concat (map snd (resample how data)) = map snd data.
Proof.
  intros Hmono Hs. apply Sorted_le_strongly in Hs.
  unfold resample. destruct (map fst data) as [|d ds] eqn:Ed.
  { destruct data; [reflexivity | discriminate Ed]. }
  rewrite map_map. cbn [snd].
  rewrite <- (map_map (fun p => filter (fun r => period_of how (fst r) =? p) data)
                      (map snd)).
  rewrite <- concat_map. f_equal. unfold zrange.
  destruct (fold_min_le ds d) as [Hmin1 Hmin2].
  destruct (fold_max_ge ds d) as [Hmax1 Hmax2].
  set (lo := fold_left Z.min ds d) in *. set (hi := fold_left Z.max ds d) in *.
  apply (groups_concat (fun r : Z * cell => period_of how (fst r))).
  - rewrite <- (map_map fst (period_of how)), Ed.
    now apply StronglySorted_map_mono.
  - assert (Hall : Forall (fun x => lo <= x <= hi) (map fst data)).
    { rewrite Ed. constructor; [lia|].
      rewrite Forall_forall in *. intros x Hx.
      specialize (Hmin2 x Hx). specialize (Hmax2 x Hx). lia. }
    rewrite Forall_map in Hall. revert Hall. apply Forall_impl.
    intros r [H1 H2]. apply Hmono in H1, H2.
    rewrite Z2Nat.id; lia.
Qed.

Lemma period_of_W_mono (a b : Z) : a <= b -> period_of W a <= period_of W b.
Proof. intros H. cbn. apply Z.div_le_mono; lia. Qed.

(** X18.  For daily data in chronological order, the weekly sub-periods
    share out the observations: their groups, taken week after week,
    are the observations in their order, none lost and none in two
    weeks. *)
Theorem weekly_groups_share_out_observations (data : Series) :
  Sorted Z.le (map fst data) ->
  List.concat (map snd (resample W data)) = values data.
Proof. apply resample_shares_out. exact period_of_W_mono. Qed.

Lemma weekly_groups_share_out_observations_witness :
  Sorted Z.le (map fst daily_sample) /\
  List.concat (map snd (resample W daily_sample)) = values daily_sample.
Proof.
  assert (H : Sorted Z.le (map fst daily_sample)).
  { cbn. repeat (constructor; try (intros E; discriminate E)). }
  split; [exact H|].
  apply (weekly_groups_share_out_observations daily_sample H).
Defined.

Lemma zrange_nth (lo hi : Z) (k : nat) :
  (k < Z.to_nat (hi - lo + 1))%nat ->
  nth_error (zrange lo hi) k = Some (lo + Z.of_nat k).
Proof.
  intros Hk. unfold zrange. rewrite nth_error_map.
  rewrite (nth_error_nth' _ 0%nat) by (rewrite length_seq; exact Hk).
  rewrite seq_nth by exact Hk. reflexivity.
Qed.

(** X19.  For data in chronological order, the bars start and end with
    the data: the open of the first bar is the first observation and
    the close of the last bar is the last observation. *)
Theorem first_open_and_last_close (data : Series) (how : rule) (df : Frame cell)
        (d0 d1 : Z) (x0 x1 : cell) :
  Sorted Z.le (map fst data) ->
  hd_error data = Some (d0, x0) ->
  last data (d0, x0) = (d1, x1) ->
  resample_plot data how = Some df ->
  (0 < len df)%nat ->
  exists o c,
    getitem df "open" = Some o /\ getitem df "close" = Some c /\
    nth_error o 0 = Some x0 /\ nth_error c (len df - 1) = Some x1.
Proof.
  intros Hs H0 H1 Hdf Hlen.
  destruct (resample_plot_spec data how df Hdf)
    as (o & h & l & c & Eo & _ & _ & Ec & Hidx & Go & _ & _ & Gc).
  exists (map snd o), (map snd c). split; [exact Go|]. split; [exact Gc|].
  unfold len in *. rewrite Hidx, length_map in *.
  apply Sorted_le_strongly in Hs.
  destruct data as [|r0 rest]; [discriminate H0|].
  cbn in H0. injection H0 as ->.
  assert (Hlast : exists init, (d0, x0) :: rest = init ++ [(d1, x1)]).
  { exists (removelast ((d0, x0) :: rest)). rewrite <- H1.
    apply app_removelast_last. discriminate. }
  destruct Hlast as [init Hinit].
  assert (Hd1 : last (map fst rest) d0 = d1).
  { rewrite <- last_cons with (d := d0).
    change (d0 :: map fst rest) with (map fst ((d0, x0) :: rest)).
    rewrite Hinit, map_app. cbn. apply last_last. }
  revert Eo Ec Hlen. unfold resample. cbn [map fst].
  cbn [map fst] in Hs. destruct (StronglySorted_inv Hs) as [_ Hall].
  rewrite (fold_min_head d0 _ Hall), (fold_max_last d0 _ Hs), Hd1.
  set (lo := period_of how d0). set (hi := period_of how d1).
  rewrite length_map, zrange_length. intros Eo Ec Hlen.
  split.
  - destruct (apply_groups_row _ _ _ 0%nat lo
                (map snd (filter (fun r => period_of how (fst r) =? lo)
                                 ((d0, x0) :: rest))) Eo)
      as [v [Hv Hg]].
    { rewrite nth_error_map, zrange_nth by exact Hlen. cbn [option_map].
      now rewrite Z.add_0_r. }
    rewrite Hv. cbn [filter fst] in Hg. fold lo in Hg.
    rewrite Z.eqb_refl in Hg. cbn in Hg. congruence.
  - destruct (apply_groups_row _ _ _ (Z.to_nat (hi - lo + 1) - 1)%nat hi
                (map snd (filter (fun r => period_of how (fst r) =? hi)
                                 ((d0, x0) :: rest))) Ec)
      as [v [Hv Hg]].
    { rewrite nth_error_map, zrange_nth by lia. cbn [option_map].
      replace (lo + Z.of_nat (Z.to_nat (hi - lo + 1) - 1)) with hi by lia.
      reflexivity. }
    rewrite Hv. rewrite Hinit, filter_app in Hg. cbn [filter fst] in Hg.
    fold hi in Hg. rewrite Z.eqb_refl, map_app in Hg.
    unfold getitem_m1 in Hg. rewrite rev_app_distr in Hg. cbn in Hg. congruence.
Qed.

Lemma first_open_and_last_close_witness :
  Sorted Z.le (map fst daily_sample) /\
  exists df o c,
    resample_plot daily_sample W = Some df /\
    getitem df "open" = Some o /\ getitem df "close" = Some c /\
    nth_error o 0 = Some (Some (786 # 100)%Q) /\
    nth_error c (len df - 1) = Some (Some (779 # 100)%Q).
Proof.
  assert (H : Sorted Z.le (map fst daily_sample)).
  { cbn. repeat (constructor; try (intros E; discriminate E)). }
  split; [exact H|].
  destruct (first_open_and_last_close daily_sample W _ 1 11
              (Some (786 # 100)%Q) (Some (779 # 100)%Q) H eq_refl eq_refl eq_refl)
    as (o & c & Ho & Hc & H0 & H1).
  { cbn. lia. }
  eexists. exists o, c. split; [reflexivity|]. repeat split; assumption.
Defined.

(** ** The sample table through the filter *)

Lemma fred_data0_idempotent_witness :
  rectangular fred_sample /\
  exists df0, fred_data0 fred_sample = Some df0 /\ fred_data0 df0 = Some df0.
Proof.
  assert (H : rectangular fred_sample) by (repeat constructor).
  split; [exact H|]. eexists. split; [reflexivity|].
  apply (proj2 (fred_data0_idempotent fred_sample _ H eq_refl)).
Defined.

Lemma missing_and_kept_dates_partition_witness :
  rectangular fred_sample /\
  exists df0 missing,
    fred_data0 fred_sample = Some df0 /\
    missing_DGS10_index fred_sample = Some missing /\
    Permutation (missing ++ index df0) (index fred_sample).
Proof.
  assert (H : rectangular fred_sample) by (repeat constructor).
  split; [exact H|].
  destruct (missing_and_kept_dates_partition fred_sample _ H eq_refl)
    as [missing [Hm Hp]].
  eexists. exists missing. split; [reflexivity|]. split; assumption.
Defined.

Lemma missing_count_and_lengths_witness :
  rectangular fred_sample /\
  exists df0 n,
    fred_data0 fred_sample = Some df0 /\
    count_of "DGS10" (isna_sum fred_sample) = Some n /\
    (len df0 + n = len fred_sample)%nat.
Proof.
  assert (H : rectangular fred_sample) by (repeat constructor).
  split; [exact H|].
  destruct (missing_count_and_lengths fred_sample _ H eq_refl)
    as (n & missing & daily & Hn & _ & _ & _ & Hl & _).
  eexists. exists n. split; [reflexivity|]. split; assumption.
Defined.
